(** * hyperview: the HTTP cache wrapped around fetch()

    A shallow embedding of [src/services/cache/index.js].  The file is
    asynchronous JavaScript: promises, two [setTimeout] timers, a key/value
    store, a transport ([baseFetch]) and an event bus.  It is modelled as an
    event loop over an explicit [World]: every closure of the source becomes a
    constructor of [Task], every effect the source performs (store access,
    transport call, event dispatch, [console.log], settlement of the caller's
    promise) is appended with its time stamp to the world's [trace].

    What lies outside the file is taken as follows.
    - The policy object comes from the npm package http-cache-semantics: it
      is an interface ([CachePolicyLib]); of its operations only
      [CachePolicy.fromObject] is allowed to throw.
    - The transport [baseFetch] answers a call made at a given time with a
      latency and a response or a rejection.
    - The store is a finite map; [get] and [set] take [store_latency] and do
      not fail; expiry is recorded, not enforced.
    - A body is a string of bytes: [text()] returns it, [blob().size] is its
      length; reading a body settles in a promise job.
    - [new Response(text, { headers })] is [TextResponse]: header names in
      lower case, the default content type added for a string body.
    - Timers and I/O completions run in the order of their due times, promise
      jobs before them. *)

From Stdlib Require Import String Ascii NArith Lia.
From stdpp Require Import gmap strings list fin_maps.

Local Open Scope string_scope.

(** ** Strings *)

(** [String.prototype.toUpperCase] on the ASCII letters (HTTP methods are
    ASCII tokens); other bytes are left as they are. *)
Definition upper_char (c : ascii) : ascii :=
  let n := nat_of_ascii c in
  if (97 <=? n)%nat && (n <=? 122)%nat then ascii_of_nat (n - 32) else c.

Fixpoint toUpperCase (s : string) : string :=
  match s with
  | EmptyString => EmptyString
  | String c s' => String (upper_char c) (toUpperCase s')
  end.

(** The byte-lowercase the [Headers] class applies to header names. *)
Definition lower_char (c : ascii) : ascii :=
  let n := nat_of_ascii c in
  if (65 <=? n)%nat && (n <=? 90)%nat then ascii_of_nat (n + 32) else c.

Fixpoint toLowerCase (s : string) : string :=
  match s with
  | EmptyString => EmptyString
  | String c s' => String (lower_char c) (toLowerCase s')
  end.

(** [hay.includes(needle)] *)
Fixpoint includes (hay needle : string) : bool :=
  String.prefix needle hay ||
  match hay with
  | EmptyString => false
  | String _ hay' => includes hay' needle
  end.

(** ** Requests, responses, errors *)

(** A plain header object: property name to value. *)
Abbreviation Headers := (gmap string string).

(** [RequestOptions]: [method] is optional in the source
    ([options.method?.toUpperCase()]). *)
Record RequestOptions := mkOptions {
  method : option string;
  req_headers : Headers;
  req_body : option string;
}.

(** A [Response]: the body is kept as text, [text()] returns it and
    [blob().size] is its length in bytes. *)
Record Response := mkResponse {
  status : nat;
  res_headers : Headers;
  res_body : string;
}.

(** [headers.append(name, value)] of the [Headers] class: the name is put
    in lower case, a value for a name that is already there is joined to the
    one it has. *)
Definition Headers_append (name value : string) (h : Headers) : Headers :=
  let name := toLowerCase name in
  match h !! name with
  | Some old => <[name := old +:+ ", " +:+ value]> h
  | None => <[name := value]> h
  end.

(** [new Headers(init)] for a plain object: every property is appended.
    (Names that differ only in case are joined in the order of the map, which
    need not be the insertion order of the object.  The names and values are
    taken to be ones the class accepts; it raises a TypeError on a name that
    is not an HTTP token.) *)
Definition new_Headers (init : Headers) : Headers := map_fold Headers_append ∅ init.

(** [new Response(text, { headers: headers })]: status 200; the headers are
    [new Headers(headers)], to which the constructor adds
    [content-type: text/plain;charset=UTF-8] when the body is a string and no
    content type is among them; an [undefined] body is the empty one and adds
    nothing. *)
Definition TextResponse (text : option string) (headers : Headers) : Response :=
  let headers := new_Headers headers in
  let headers :=
    match text, headers !! "content-type" with
    | Some _, None => <["content-type" := "text/plain;charset=UTF-8"]> headers
    | _, _ => headers
    end in
  mkResponse 200 headers (default "" text).

Definition blob_size (r : Response) : nat := String.length (res_body r).

Inductive JsError :=
| TypeError (msg : string)        (* destructuring null *)
| PolicyError                     (* thrown by CachePolicy.fromObject *)
| NetworkError (msg : string).    (* rejection of the transport *)

(** The errors that do not come from the transport. *)
Definition cache_error (e : JsError) : bool :=
  match e with NetworkError _ => false | _ => true end.

Abbreviation FetchResult := (Response + JsError)%type.

(** [cachePolicyOptions] *)
Record PolicyOptions := { shared : bool }.
Definition cachePolicyOptions : PolicyOptions := {| shared := false |}.

(** ** The policy library (http-cache-semantics)

    Operations that read the clock ([Date.now()]) take the current time. *)
Class CachePolicyLib (Policy PolicyObj : Type) := {
  (* new CachePolicy(req, res, opts) *)
  newPolicy : N -> RequestOptions -> Response -> PolicyOptions -> Policy;
  storable : Policy -> bool;
  toObject : Policy -> PolicyObj;
  (* CachePolicy.fromObject(obj): None when it throws; the argument is None
     when the property is undefined *)
  fromObject : option PolicyObj -> option Policy;
  satisfiesWithoutRevalidation : N -> Policy -> RequestOptions -> bool;
  responseHeaders : N -> Policy -> Headers;
  revalidationHeaders : Policy -> RequestOptions -> Headers;
  (* { policy, modified } *)
  revalidatedPolicy : N -> Policy -> RequestOptions -> Response -> Policy * bool;
  timeToLive : N -> Policy -> N;
}.

(** ** The event loop *)

Section Cache.
Context {Policy PolicyObj : Type} {L : CachePolicyLib Policy PolicyObj}.

(** What the store hands back is duck-typed: [undefined] when the key is
    absent, otherwise whatever was persisted.  A property that is missing
    reads as [undefined] ([None]). *)
Record HttpCacheValue := mkCacheValue {
  cv_text : option string;
  cv_headers : Headers;
  cv_size : nat;
  cv_policy : option PolicyObj;
}.

Inductive JsValue :=
| JsUndefined
| JsNull
| JsObject (o : HttpCacheValue).

(** The [console.log] calls of the file. *)
Inductive LogMsg :=
| LogCacheMiss (url : string)
| LogNotCacheable (url : string)
| LogBaseFetchHeaders (h : Headers) (options : RequestOptions)
| LogCaching (url : string) (expiry : N)
| LogModified (modified : bool)
| LogCacheHit (url : string)
| LogUsable
| LogNeedsRevalidation
| LogOptionsNew (options : RequestOptions)
| LogCache (v : JsValue).

Inductive Event :=
| StoreGet (url : string)
| StoreSet (url : string) (v : HttpCacheValue) (expiry : N)
| FetchStart (url : string) (options : RequestOptions)
| FetchSettled (url : string) (r : FetchResult)
| Dispatch (name url : string)
| CallerSettled (url : string) (r : FetchResult)
| UnhandledRejection (e : JsError)
| Console (m : LogMsg).

(** The closures of the source, one constructor each, with the variables
    they capture. *)
Inductive Task :=
| KAfterGet (url : string) (options : RequestOptions) (cacheValue : JsValue)
| KSettleCaller (url : string) (r : FetchResult)
| KMissSettled (url : string) (options : RequestOptions) (r : FetchResult)
| KMissText (url : string) (response : Response) (cachePolicy : Policy) (text : string)
| KMissBlob (url : string) (text : string) (headers : Headers) (size : nat)
    (cachePolicy : Policy)
| KMissAfterSet (url : string)
| KStaleEvent (url : string)
| KRevalSettled (url : string) (text : option string) (headers : Headers)
    (policy : Policy) (options : RequestOptions) (r : FetchResult)
| KRevalTimer (url : string) (text : option string) (newResponse : Response)
    (revalidated : Policy)
| KRevalBlob (url : string) (text : option string) (size : nat) (headers : Headers)
    (revalidated : Policy)
| KRevalAfterSet (url : string).

Record World := mkWorld {
  now : N;                             (* the clock, in ms *)
  store : gmap string JsValue;         (* the cache passed to wrapFetch *)
  microtasks : list Task;              (* promise jobs, first in first out *)
  macrotasks : list (N * Task);        (* timers and I/O completions, by due time *)
  trace : list (N * Event);            (* the effects so far, oldest first *)
}.

(** The transport: called at a time with a URL and options, it settles
    after a latency with a response or a rejection. *)
Variable baseFetch : N -> string -> RequestOptions -> N * FetchResult.
(** The time the store takes to complete a [get] or a [set]. *)
Variable store_latency : N.

Definition emit (e : Event) (w : World) : World :=
  mkWorld (now w) (store w) (microtasks w) (macrotasks w) (trace w ++ [(now w, e)]).

Definition queueMicrotask (k : Task) (w : World) : World :=
  mkWorld (now w) (store w) (microtasks w ++ [k]) (macrotasks w) (trace w).

(** Insertion by due time, after the tasks already due at that time. *)
Fixpoint enqueue (due : N) (k : Task) (q : list (N * Task)) : list (N * Task) :=
  match q with
  | [] => [(due, k)]
  | (d, k') :: q' =>
      if (due <? d)%N then (due, k) :: q else (d, k') :: enqueue due k q'
  end.

Definition setTimeout (k : Task) (delay : N) (w : World) : World :=
  mkWorld (now w) (store w) (microtasks w)
    (enqueue (now w + delay)%N k (macrotasks w)) (trace w).

(** [cache.get(url)]: [undefined] for an absent key. *)
Definition cache_get (url : string) (k : JsValue -> Task) (w : World) : World :=
  let v := default JsUndefined (store w !! url) in
  setTimeout (k v) store_latency (emit (StoreGet url) w).

(** [cache.set(url, value, expiry)] *)
Definition cache_set (url : string) (v : HttpCacheValue) (expiry : N) (k : Task)
    (w : World) : World :=
  let w := emit (StoreSet url v expiry) w in
  let w := mkWorld (now w) (<[url := JsObject v]> (store w)) (microtasks w)
             (macrotasks w) (trace w) in
  setTimeout k store_latency w.

(** [baseFetch(url, options).then(k)] *)
Definition fetch (url : string) (options : RequestOptions) (k : FetchResult -> Task)
    (w : World) : World :=
  let '(latency, r) := baseFetch (now w) url options in
  setTimeout (k r) latency (emit (FetchStart url options) w).

(** *** handleCacheMiss *)

Definition handleCacheMiss (url : string) (options : RequestOptions) (w : World)
    : World :=
  let w := emit (Console (LogCacheMiss url)) w in
  fetch url options (KMissSettled url options) w.

(* the callback given to [then], up to [await clonedResponse.clone().text()] *)
Definition handleCacheMiss_then (url : string) (options : RequestOptions)
    (r : FetchResult) (w : World) : World :=
  let w := emit (FetchSettled url r) w in
  match r with
  | inr e => queueMicrotask (KSettleCaller url (inr e)) w
  | inl response =>
      let cachePolicy := newPolicy (now w) options response cachePolicyOptions in
      if negb (storable cachePolicy) then
        let w := emit (Console (LogNotCacheable url)) w in
        queueMicrotask (KSettleCaller url (inl response)) w
      else
        let w := emit (Console (LogBaseFetchHeaders (res_headers response) options)) w in
        queueMicrotask (KMissText url response cachePolicy (res_body response)) w
  end.

(* after the await: [response.blob().then(...)] and [return clonedResponse] *)
Definition handleCacheMiss_text (url : string) (response : Response)
    (cachePolicy : Policy) (text : string) (w : World) : World :=
  let w := queueMicrotask
             (KMissBlob url text (res_headers response) (blob_size response) cachePolicy) w in
  queueMicrotask (KSettleCaller url (inl response)) w.

(* the callback of [response.blob().then] *)
Definition handleCacheMiss_blob (url : string) (text : string) (headers : Headers)
    (size : nat) (cachePolicy : Policy) (w : World) : World :=
  let cacheValue := mkCacheValue (Some text) headers size (Some (toObject cachePolicy)) in
  let expiry := timeToLive (now w) cachePolicy in
  let w := emit (Console (LogCaching url expiry)) w in
  cache_set url cacheValue expiry (KMissAfterSet url) w.

(** *** revalidateCacheHit *)

Definition revalidateCacheHit (url : string) (cacheValue : HttpCacheValue)
    (options : RequestOptions) (w : World) : FetchResult * World :=
  let text := cv_text cacheValue in
  match fromObject (cv_policy cacheValue) with
  | None => (inr PolicyError, w)
  | Some policy =>
      let revalidationHeaders := revalidationHeaders policy options in
      let revalidationOptions :=
        mkOptions (method options) revalidationHeaders (req_body options) in
      let headers := responseHeaders (now w) policy in
      let w := setTimeout (KStaleEvent url) 10%N w in
      let w := fetch url revalidationOptions
                 (KRevalSettled url text headers policy options) w in
      (inl (TextResponse text headers), w)
  end.

(* the callback given to [then] *)
Definition revalidateCacheHit_then (url : string) (text : option string)
    (headers : Headers) (policy : Policy) (options : RequestOptions)
    (r : FetchResult) (w : World) : World :=
  let w := emit (FetchSettled url r) w in
  match r with
  | inr e => emit (UnhandledRejection e) w
  | inl revalidationResponse =>
      let revalidation := revalidatedPolicy (now w) policy options revalidationResponse in
      let revalidated := fst revalidation in
      let modified := snd revalidation in
      let w := emit (Console (LogModified modified)) w in
      let newResponse :=
        if modified then revalidationResponse else TextResponse text headers in
      setTimeout (KRevalTimer url text newResponse revalidated) 2000%N w
  end.

(* the callback of [newResponse.blob().then], run by the 2000 ms timer *)
Definition revalidateCacheHit_blob (url : string) (text : option string) (size : nat)
    (headers : Headers) (revalidated : Policy) (w : World) : World :=
  let newCacheValue := mkCacheValue text headers size (Some (toObject revalidated)) in
  let expiry := timeToLive (now w) revalidated in
  let w := emit (Console (LogCaching url expiry)) w in
  cache_set url newCacheValue expiry (KRevalAfterSet url) w.

(** *** handleCacheHit *)

Definition handleCacheHit (url : string) (cacheValue : JsValue)
    (options : RequestOptions) (w : World) : FetchResult * World :=
  match cacheValue with
  | JsUndefined | JsNull =>
      (inr (TypeError "Cannot destructure property 'text'"), w)
  | JsObject o =>
      let text := cv_text o in
      match fromObject (cv_policy o) with
      | None => (inr PolicyError, w)
      | Some policy =>
          let w := emit (Console (LogCacheHit url)) w in
          if satisfiesWithoutRevalidation (now w) policy options then
            let w := emit (Console LogUsable) w in
            let headers := responseHeaders (now w) policy in
            (inl (TextResponse text headers), w)
          else
            let w := emit (Console LogNeedsRevalidation) w in
            revalidateCacheHit url o options w
      end
  end.

(** *** cachedFetch *)

Definition optionsNew (url : string) (options : RequestOptions) : RequestOptions :=
  if negb (includes url "without_caching.xml") then
    mkOptions (toUpperCase <$> method options) (req_headers options) (req_body options)
  else
    mkOptions (toUpperCase <$> method options)
      (<["cache-control" := "no-cache, no-store"]> (req_headers options))
      (req_body options).

Definition is_undefined (v : JsValue) : bool :=
  match v with JsUndefined => true | _ => false end.

(* up to [await cache.get(url)] *)
Definition cachedFetch (url : string) (options : RequestOptions) (w : World) : World :=
  cache_get url (KAfterGet url options) w.

(* after the await *)
Definition cachedFetch_resume (url : string) (options : RequestOptions)
    (cacheValue : JsValue) (w : World) : World :=
  let optionsNew := optionsNew url options in
  let w := emit (Console (LogOptionsNew optionsNew)) w in
  let w := emit (Console (LogCache cacheValue)) w in
  if negb (is_undefined cacheValue) then
    let '(r, w) := handleCacheHit url cacheValue optionsNew w in
    queueMicrotask (KSettleCaller url r) w
  else
    handleCacheMiss url optionsNew w.

Definition wrapFetch (url : string) (options : RequestOptions) (w : World) : World :=
  cachedFetch url options w.

(** *** Running the loop *)

Definition run_task (k : Task) (w : World) : World :=
  match k with
  | KAfterGet url options cacheValue => cachedFetch_resume url options cacheValue w
  | KSettleCaller url r => emit (CallerSettled url r) w
  | KMissSettled url options r => handleCacheMiss_then url options r w
  | KMissText url response cachePolicy text =>
      handleCacheMiss_text url response cachePolicy text w
  | KMissBlob url text headers size cachePolicy =>
      handleCacheMiss_blob url text headers size cachePolicy w
  | KMissAfterSet url => w
  | KStaleEvent url => emit (Dispatch "response-stale-revalidating" url) w
  | KRevalSettled url text headers policy options r =>
      revalidateCacheHit_then url text headers policy options r w
  | KRevalTimer url text newResponse revalidated =>
      queueMicrotask
        (KRevalBlob url text (blob_size newResponse) (res_headers newResponse)
           revalidated) w
  | KRevalBlob url text size headers revalidated =>
      revalidateCacheHit_blob url text size headers revalidated w
  | KRevalAfterSet url => emit (Dispatch "response-revalidated" url) w
  end.

(** One turn: the oldest promise job if there is one, otherwise the next
    timer or I/O completion, the clock advancing to its due time. *)
Definition step (w : World) : option World :=
  match microtasks w with
  | k :: ks => Some (run_task k (mkWorld (now w) (store w) ks (macrotasks w) (trace w)))
  | [] =>
      match macrotasks w with
      | (due, k) :: q =>
          Some (run_task k (mkWorld (N.max (now w) due) (store w) [] q (trace w)))
      | [] => None
      end
  end.

Fixpoint run (fuel : nat) (w : World) : World :=
  match fuel with
  | O => w
  | S fuel' => match step w with Some w' => run fuel' w' | None => w end
  end.

Definition quiescent (w : World) : Prop := microtasks w = [] /\ macrotasks w = [].

(** A world in which nothing is pending and nothing has happened yet. *)
Definition idle (t0 : N) (st : gmap string JsValue) : World := mkWorld t0 st [] [] [].

(** A single call of the wrapped fetch, run for [fuel] turns. *)
Definition request (fuel : nat) (t0 : N) (st : gmap string JsValue) (url : string)
    (options : RequestOptions) : World :=
  run fuel (wrapFetch url options (idle t0 st)).

(** ** Reading a trace *)

Definition events (w : World) : list Event := (trace w).*2.

Definition is_store_get (e : Event) : bool :=
  match e with StoreGet _ => true | _ => false end.
Definition is_store_set (e : Event) : bool :=
  match e with StoreSet _ _ _ => true | _ => false end.
Definition is_fetch_start (e : Event) : bool :=
  match e with FetchStart _ _ => true | _ => false end.
Definition is_fetch_settled (e : Event) : bool :=
  match e with FetchSettled _ _ => true | _ => false end.
Definition is_caller_settled (e : Event) : bool :=
  match e with CallerSettled _ _ => true | _ => false end.
Definition is_dispatch (name : string) (e : Event) : bool :=
  match e with Dispatch n _ => String.eqb n name | _ => false end.
Definition is_log_miss (e : Event) : bool :=
  match e with Console (LogCacheMiss _) => true | _ => false end.

Definition is_log_hit (e : Event) : bool :=
  match e with Console (LogCacheHit _) => true | _ => false end.

(** A stored value that is there but cannot be used: [null], or an object
    whose [policy] property [CachePolicy.fromObject] refuses. *)
Definition malformed (v : JsValue) : bool :=
  match v with
  | JsUndefined => false
  | JsNull => true
  | JsObject o => match fromObject (cv_policy o) with Some _ => false | None => true end
  end.

(** The caller's promise rejects with an error of the cache itself. *)
Definition is_cache_failure (e : Event) : bool :=
  match e with CallerSettled _ (inr err) => cache_error err | _ => false end.

(** [cache-control: no-cache, no-store] is on the request given to the
    transport. *)
Definition carries_no_store (o : RequestOptions) : bool :=
  bool_decide (req_headers o !! "cache-control" = Some "no-cache, no-store").
Definition fetch_carries_no_store (e : Event) : bool :=
  match e with FetchStart _ o => carries_no_store o | _ => true end.

(** Some event satisfying [p] occurs strictly earlier than some event
    satisfying [q]. *)
Fixpoint beforeb (p q : Event -> bool) (tr : list Event) : bool :=
  match tr with
  | [] => false
  | e :: tr' => (p e && existsb q tr') || beforeb p q tr'
  end.

(** The method a request carries is already in upper case. *)
Definition method_normalized (o : RequestOptions) : bool :=
  bool_decide (method o = toUpperCase <$> method o).

(** The requests held by the continuations of [cachedFetch] that wait for
    the store. *)
Definition awaiting_lookup (w : World) : list RequestOptions :=
  omap (fun dk => match dk.2 with KAfterGet _ o _ => Some o | _ => None end)
       (macrotasks w).

(** *** The claims that do not hold, as they are written *)

(** "No Cache Store read and no Cache Store write is ever performed, and the
    request issued to the transport carries the header". *)
Definition bypass_as_claimed (tr : list Event) : bool :=
  negb (existsb is_store_get tr) && negb (existsb is_store_set tr)
  && forallb fetch_carries_no_store tr.

(** "response-stale-revalidating is dispatched strictly before the
    revalidation network call starts, and response-revalidated strictly after
    the network call returns and the merged entry is written". *)
Definition event_order_as_claimed (tr : list Event) : bool :=
  beforeb (is_dispatch "response-stale-revalidating") is_fetch_start tr
  && beforeb is_fetch_settled (is_dispatch "response-revalidated") tr
  && beforeb is_store_set (is_dispatch "response-revalidated") tr.

(** "The body stored after revalidation is byte-identical to the body stored
    before, the policy snapshot is replaced by the revalidated policy and the
    entry's headers are refreshed per the 304-equivalent merge rule": the
    merge is what [revalidatedPolicy] computes, so the refreshed headers are
    the ones the revalidated policy reconstructs. *)
Definition not_modified_entry_as_claimed (t : N) (old : HttpCacheValue)
    (revalidated : Policy) (stored : option JsValue) : Prop :=
  exists o, stored = Some (JsObject o) /\ cv_text o = cv_text old /\
    cv_policy o = Some (toObject revalidated) /\
    cv_headers o = responseHeaders t revalidated.

(** "The request is handled as an ordinary cache miss and the caller never
    observes a cache-specific error". *)
Definition malformed_as_claimed (tr : list Event) : bool :=
  existsb is_log_miss tr && negb (existsb is_cache_failure tr).

(** "The HTTP method is normalized to uppercase before any Cache Store
    lookup is performed": once the lookup is issued, the call that waits for
    it holds a request whose method is in upper case. *)
Definition normalized_before_lookup (w : World) : bool :=
  existsb is_store_get (events w) && forallb method_normalized (awaiting_lookup w).

(** *** The trace of a stale hit up to the settlement of the caller *)

Definition stale_head (t0 t1 : N) (url : string) (opts : RequestOptions)
    (o : HttpCacheValue) (pol : Policy) : list (N * Event) :=
  [(t0, StoreGet url); (t1, Console (LogOptionsNew opts));
   (t1, Console (LogCache (JsObject o)));
   (t1, Console (LogCacheHit url)); (t1, Console LogNeedsRevalidation);
   (t1, FetchStart url
          (mkOptions (method opts) (revalidationHeaders pol opts) (req_body opts)));
   (t1, CallerSettled url (inl (TextResponse (cv_text o) (responseHeaders t1 pol))))].

(** ** More to read from a run *)

(** The URL a pending task works for. *)
Definition task_url (k : Task) : string :=
  match k with
  | KAfterGet url _ _ | KSettleCaller url _ | KMissSettled url _ _
  | KMissText url _ _ _ | KMissBlob url _ _ _ _ | KMissAfterSet url
  | KStaleEvent url | KRevalSettled url _ _ _ _ _ | KRevalTimer url _ _ _
  | KRevalBlob url _ _ _ _ | KRevalAfterSet url => url
  end.

(** Everything pending works for [url]. *)
Definition tasks_for (url : string) (w : World) : Prop :=
  Forall (fun k => task_url k = url) (microtasks w) /\
  Forall (fun dk => task_url dk.2 = url) (macrotasks w).

(** From [w] to [w'] what is pending still works for [url], and the store
    is the same at every other key. *)
Definition keeps (url : string) (w w' : World) : Prop :=
  (tasks_for url w -> tasks_for url w') /\
  (forall u, u <> url -> store w' !! u = store w !! u).

Definition is_any_dispatch (e : Event) : bool :=
  match e with Dispatch _ _ => true | _ => false end.

(** The request given to the transport has its method in upper case. *)
Definition fetch_method_normalized (e : Event) : bool :=
  match e with FetchStart _ o => method_normalized o | _ => true end.

(** A store access or a transport call is for [url]. *)
Definition about_url (url : string) (e : Event) : bool :=
  match e with
  | StoreGet u | StoreSet u _ _ | FetchStart u _ => String.eqb u url
  | _ => true
  end.

(** The stored value is usable and its policy asks for revalidation. *)
Definition is_stale_hit (t : N) (v : JsValue) (options : RequestOptions) : bool :=
  match v with
  | JsObject o =>
      match fromObject (cv_policy o) with
      | Some policy => negb (satisfiesWithoutRevalidation t policy options)
      | None => false
      end
  | _ => false
  end.

(** Two calls of the wrapped fetch for the same URL, the second made before
    the first has got anything back. *)
Definition overlapping (fuel : nat) (t0 : N) (st : gmap string JsValue) (url : string)
    (o1 o2 : RequestOptions) : World :=
  run fuel (wrapFetch url o2 (wrapFetch url o1 (idle t0 st))).

End Cache.

Arguments HttpCacheValue : clear implicits.
Arguments JsValue : clear implicits.
Arguments LogMsg : clear implicits.
Arguments Event : clear implicits.
Arguments Task : clear implicits.
Arguments World : clear implicits.

(** ** A policy engine to run examples with

    http-cache-semantics reduced to what the examples exercise: freshness by
    [max-age], validation by [etag], a request [no-store] or [no-cache], the
    replacement of stored headers by those of a 304. *)
Module Sample.

(** The rest of [hay] after the first occurrence of [needle]. *)
Fixpoint after (hay needle : string) : option string :=
  if String.prefix needle hay then
    Some (String.substring (String.length needle)
            (String.length hay - String.length needle) hay)
  else
    match hay with
    | EmptyString => None
    | String _ hay' => after hay' needle
    end.

Fixpoint digits (s : string) (acc : N) : N :=
  match s with
  | EmptyString => acc
  | String c s' =>
      let n := nat_of_ascii c in
      if (48 <=? n)%nat && (n <=? 57)%nat
      then digits s' (10 * acc + N.of_nat (n - 48))%N
      else acc
  end.

Definition directive (h : Headers) (name : string) : bool :=
  includes (default "" (h !! "cache-control")) name.

Record policy := mkPolicy {
  p_method : option string;
  p_req_no_store : bool;
  p_status : nat;
  p_resh : Headers;           (* the response headers *)
  p_response_time : N;        (* ms *)
}.

(** The serialized form carries a version tag; [fromObject] refuses
    anything but version 1. *)
Record policy_obj := mkPolicyObj { v : nat; state : policy }.

(** Freshness lifetime in ms. *)
Definition max_age (p : policy) : N :=
  match after (default "" (p_resh p !! "cache-control")) "max-age=" with
  | Some rest => (1000 * digits rest 0)%N
  | None => 0%N
  end.

Definition age (t : N) (p : policy) : N := (t - p_response_time p)%N.

Definition new (t : N) (req : RequestOptions) (res : Response) (_ : PolicyOptions)
    : policy :=
  mkPolicy (method req) (directive (req_headers req) "no-store") (status res)
    (res_headers res) t.

Definition cacheable_method (m : option string) : bool :=
  match m with
  | None => true
  | Some m => String.eqb m "GET" || String.eqb m "HEAD"
  end.

Definition sample_storable (p : policy) : bool :=
  negb (p_req_no_store p) && cacheable_method (p_method p)
  && (p_status p =? 200)%nat && negb (directive (p_resh p) "no-store").

Definition from_object (o : option policy_obj) : option policy :=
  match o with
  | Some o => if (v o =? 1)%nat then Some (state o) else None
  | None => None
  end.

Definition satisfies (t : N) (p : policy) (req : RequestOptions) : bool :=
  negb (directive (req_headers req) "no-cache") && (age t p <? max_age p)%N.

Definition revalidation_headers (p : policy) (req : RequestOptions) : Headers :=
  match p_resh p !! "etag" with
  | Some tag => <["if-none-match" := tag]> (req_headers req)
  | None => req_headers req
  end.

(** A 304 keeps the stored headers, each replaced by the header of the same
    name in the 304 when there is one; any other status starts afresh. *)
Definition revalidated (t : N) (p : policy) (req : RequestOptions) (res : Response)
    : policy * bool :=
  if (status res =? 304)%nat then
    (mkPolicy (p_method p) (p_req_no_store p) (p_status p)
       (map_imap (fun k x => Some (default x (res_headers res !! k))) (p_resh p)) t,
     false)
  else (new t req res cachePolicyOptions, true).

#[export] Instance lib : CachePolicyLib policy policy_obj := {|
  newPolicy := new;
  storable := sample_storable;
  toObject := mkPolicyObj 1;
  fromObject := from_object;
  satisfiesWithoutRevalidation := satisfies;
  responseHeaders := fun _ p => p_resh p;
  revalidationHeaders := revalidation_headers;
  revalidatedPolicy := revalidated;
  timeToLive := fun t p => (max_age p - age t p)%N;
|}.

(** *** The scenario of the documentation: [/doc.xml], [max-age=60] *)

Definition get_request : RequestOptions := mkOptions (Some "get") ∅ None.

Definition doc_headers : Headers :=
  {[ "cache-control" := "max-age=60"; "etag" := "v1" ]}.

(** The headers of the response [new Response] builds from a text and
    [doc_headers], and from a text and the headers of the changed document
    below. *)
Definition served_headers : Headers :=
  {[ "cache-control" := "max-age=60"; "content-type" := "text/plain;charset=UTF-8";
     "etag" := "v1" ]}.
Definition served_changed_headers : Headers :=
  {[ "cache-control" := "max-age=60"; "content-type" := "text/plain;charset=UTF-8";
     "etag" := "v2" ]}.

(** The policy of the response stored at time 0, and the entry, whose body
    is [old]. *)
Definition doc_policy : policy := mkPolicy (Some "GET") false 200 doc_headers 0%N.

Definition doc_entry : HttpCacheValue policy_obj :=
  mkCacheValue (Some "old") doc_headers 3 (Some (mkPolicyObj 1 doc_policy)).

Definition doc_store : gmap string (JsValue policy_obj) := {[ "/doc.xml" := JsObject doc_entry ]}.

(** An origin whose document has changed: 200 with a new body, after 50 ms. *)
Definition changed_response : Response :=
  mkResponse 200 {[ "cache-control" := "max-age=60"; "etag" := "v2" ]} "newer".
Definition origin_changed (_ : N) (_ : string) (_ : RequestOptions)
    : N * FetchResult :=
  (50%N, inl changed_response).

(** An origin whose document has not changed: 304 with a longer lifetime. *)
Definition unchanged_response : Response :=
  mkResponse 304 {[ "cache-control" := "max-age=120"; "etag" := "v1" ]} "".
Definition origin_unchanged (_ : N) (_ : string) (_ : RequestOptions)
    : N * FetchResult :=
  (50%N, inl unchanged_response).

(** An origin that cannot be reached. *)
Definition origin_down (_ : N) (_ : string) (_ : RequestOptions)
    : N * FetchResult :=
  (50%N, inr (NetworkError "Network request failed")).

(** An entry whose policy snapshot is of another version. *)
Definition broken_entry : HttpCacheValue policy_obj :=
  mkCacheValue (Some "old") doc_headers 3 (Some (mkPolicyObj 0 doc_policy)).

(** A URL of the kind that is never to be cached, and a store that holds an
    entry for it all the same. *)
Definition feed_url : string := "/feed_without_caching.xml".
Definition feed_store : gmap string (JsValue policy_obj) := {[ feed_url := JsObject doc_entry ]}.


(** An origin whose answer must not be stored. *)
Definition uncacheable_response : Response :=
  mkResponse 200 {[ "cache-control" := "no-store" ]} "live".
Definition origin_uncacheable (_ : N) (_ : string) (_ : RequestOptions)
    : N * FetchResult :=
  (50%N, inl uncacheable_response).

(** The policy of [changed_response] when it answers a call made at time 0
    to a store with a latency of 5 ms, and the entry a miss stores for it. *)
Definition changed_policy : policy :=
  mkPolicy (Some "GET") false 200 (res_headers changed_response) 55%N.
Definition changed_entry : HttpCacheValue policy_obj :=
  mkCacheValue (Some "newer") (res_headers changed_response) 5
    (Some (mkPolicyObj 1 changed_policy)).

(** A usable entry that has lost its text. *)
Definition textless_entry : HttpCacheValue policy_obj :=
  mkCacheValue None doc_headers 0 (Some (mkPolicyObj 1 doc_policy)).

End Sample.

(** ** Complete runs, path by path *)

Lemma upper_char_idem c : upper_char (upper_char c) = upper_char c.
Proof. destruct c as [[] [] [] [] [] [] [] []]; reflexivity. Qed.

Lemma toUpperCase_idem s : toUpperCase (toUpperCase s) = toUpperCase s.
Proof. induction s as [|c s IH]; simpl; [done|]. by rewrite upper_char_idem, IH. Qed.

(** *** The response that is synthesized *)

Lemma TextResponse_status text h : status (TextResponse text h) = 200%nat.
Proof. done. Qed.

Lemma TextResponse_body text h : res_body (TextResponse (Some text) h) = text.
Proof. done. Qed.

(** Header names that are in lower case already go through [new Headers]
    unchanged. *)
Lemma new_Headers_lower_case (h : Headers) :
  (forall name value, h !! name = Some value -> toLowerCase name = name) ->
  new_Headers h = h.
Proof.
  unfold new_Headers.
  apply (map_fold_weak_ind (fun r m =>
    (forall name value, m !! name = Some value -> toLowerCase name = name) -> r = m)).
  - done.
  - intros i x m r Hi IH Hlow. unfold Headers_append.
    rewrite (Hlow i x) by apply lookup_insert_eq.
    rewrite IH.
    + by rewrite Hi.
    + intros name value Hn. apply (Hlow name value).
      rewrite lookup_insert_ne; [done|]. intros <-. congruence.
Qed.

(** The headers of the synthesized response are then the given ones, with
    the default content type when they have none. *)
Lemma TextResponse_lower_case text (h : Headers) :
  (forall name value, h !! name = Some value -> toLowerCase name = name) ->
  TextResponse (Some text) h =
  mkResponse 200
    (match h !! "content-type" with
     | Some _ => h
     | None => <["content-type" := "text/plain;charset=UTF-8"]> h
     end) text.
Proof.
  intros Hlow. unfold TextResponse. rewrite (new_Headers_lower_case h Hlow).
  by destruct (h !! "content-type").
Qed.

(** So every header given is a header of the response, with its value. *)
Lemma TextResponse_carries text (h : Headers) :
  (forall name value, h !! name = Some value -> toLowerCase name = name) ->
  forall name value,
    h !! name = Some value ->
    res_headers (TextResponse (Some text) h) !! name = Some value.
Proof.
  intros Hlow name value Hn. rewrite (TextResponse_lower_case text h Hlow). cbn.
  destruct (h !! "content-type") eqn:Hct; [done|].
  rewrite lookup_insert_ne; [done|]. intros <-. congruence.
Qed.

Local Open Scope N_scope.

Ltac arith :=
  repeat match goal with
  | |- context [N.max ?a ?b] =>
      first [ replace (N.max a b) with b by lia | replace (N.max a b) with a by lia ]
  | |- context [(?a <? ?b)%N] =>
      first [ replace (a <? b)%N with true by (symmetry; apply N.ltb_lt; lia)
            | replace (a <? b)%N with false by (symmetry; apply N.ltb_ge; lia) ]
  end.

Section Runs.
Context {Policy PolicyObj : Type} {L : CachePolicyLib Policy PolicyObj}.
Variable baseFetch : N -> string -> RequestOptions -> N * FetchResult.
Variable store_latency : N.

Local Arguments N.add : simpl never.
Local Arguments N.ltb : simpl never.
Local Arguments N.max : simpl never.

Local Abbreviation request := (request baseFetch store_latency).
Local Abbreviation run := (run baseFetch store_latency).
Local Abbreviation step := (step baseFetch store_latency).

Lemma run_quiescent n w : step w = None -> run n w = w.
Proof. intros H. destruct n; simpl; [done|]. by rewrite H. Qed.

Lemma run_add n m w : run (n + m) w = run m (run n w).
Proof.
  revert w. induction n as [|n IH]; intros w; simpl; [done|].
  destruct (step w) as [w'|] eqn:E; [apply IH|].
  by rewrite run_quiescent.
Qed.

(** The trace only grows. *)
Lemma run_task_trace k w : trace w `prefix_of` trace (run_task baseFetch store_latency k w).
Proof.
  destruct k; simpl;
    unfold cachedFetch_resume, handleCacheHit, revalidateCacheHit, handleCacheMiss,
      handleCacheMiss_then, handleCacheMiss_text, handleCacheMiss_blob,
      revalidateCacheHit_then, revalidateCacheHit_blob, cache_set, fetch;
    repeat case_match; simplify_eq/=; repeat apply prefix_app_r; done.
Qed.

Lemma step_trace w w' : step w = Some w' -> trace w `prefix_of` trace w'.
Proof.
  unfold step. intros H. repeat case_match; simplify_eq.
  - apply (run_task_trace _ (mkWorld _ _ _ _ _)).
  - apply (run_task_trace _ (mkWorld _ _ _ _ _)).
Qed.

Lemma run_trace n w : trace w `prefix_of` trace (run n w).
Proof.
  revert w. induction n as [|n IH]; intros w; simpl; [done|].
  destruct (step w) as [w'|] eqn:E; [|done].
  etrans; [by apply step_trace|apply IH].
Qed.

Section Call.
Variables (t0 : N) (st : gmap string (JsValue PolicyObj)) (url : string)
  (options : RequestOptions).

Local Abbreviation opts := (optionsNew url options).
Local Abbreviation t1 := (t0 + store_latency).

Ltac start Hst :=
  unfold request, wrapFetch, cachedFetch, cache_get, idle; cbn [store];
  rewrite Hst; cbn; arith; unfold cachedFetch_resume; cbn.

Lemma run_null n :
  default JsUndefined (st !! url) = JsNull ->
  request (2 + n) t0 st url options =
  mkWorld t1 st [] []
    [(t0, StoreGet url); (t1, Console (LogOptionsNew opts));
     (t1, Console (LogCache JsNull));
     (t1, CallerSettled url (inr (TypeError "Cannot destructure property 'text'")))].
Proof. intros Hst. start Hst. by rewrite run_quiescent. Qed.

Lemma run_malformed o n :
  default JsUndefined (st !! url) = JsObject o ->
  fromObject (cv_policy o) = None ->
  request (2 + n) t0 st url options =
  mkWorld t1 st [] []
    [(t0, StoreGet url); (t1, Console (LogOptionsNew opts));
     (t1, Console (LogCache (JsObject o)));
     (t1, CallerSettled url (inr PolicyError))].
Proof. intros Hst Hp. start Hst. rewrite Hp. cbn. by rewrite run_quiescent. Qed.

Lemma run_fresh o pol n :
  default JsUndefined (st !! url) = JsObject o ->
  fromObject (cv_policy o) = Some pol ->
  satisfiesWithoutRevalidation t1 pol opts = true ->
  request (2 + n) t0 st url options =
  mkWorld t1 st [] []
    [(t0, StoreGet url); (t1, Console (LogOptionsNew opts));
     (t1, Console (LogCache (JsObject o)));
     (t1, Console (LogCacheHit url)); (t1, Console LogUsable);
     (t1, CallerSettled url (inl (TextResponse (cv_text o) (responseHeaders t1 pol))))].
Proof.
  intros Hst Hp Hf. start Hst. rewrite Hp. cbn. rewrite Hf. cbn.
  by rewrite run_quiescent.
Qed.

Lemma run_stale_rejected o pol lat e n :
  default JsUndefined (st !! url) = JsObject o ->
  fromObject (cv_policy o) = Some pol ->
  satisfiesWithoutRevalidation t1 pol opts = false ->
  baseFetch t1 url
    (mkOptions (method opts) (revalidationHeaders pol opts) (req_body opts))
    = (lat, inr e) ->
  request (4 + n) t0 st url options =
  mkWorld (N.max (t1 + 10) (t1 + lat)) st [] []
    (stale_head t0 t1 url opts o pol ++
     (if lat <? 10 then
        [(t1 + lat, FetchSettled url (inr e)); (t1 + lat, UnhandledRejection e);
         (t1 + 10, Dispatch "response-stale-revalidating" url)]
      else
        [(t1 + 10, Dispatch "response-stale-revalidating" url);
         (t1 + lat, FetchSettled url (inr e)); (t1 + lat, UnhandledRejection e)])).
Proof.
  intros Hst Hp Hf Hb. start Hst. rewrite Hp. cbn. rewrite Hf. cbn.
  unfold revalidateCacheHit, fetch. cbn. rewrite Hp. cbn. rewrite Hb. cbn.
  destruct (N.ltb_spec lat 10); arith; cbn; arith;
    unfold revalidateCacheHit_then; cbn; arith; by rewrite run_quiescent.
Qed.

Lemma run_stale_resolved o pol lat resp n :
  default JsUndefined (st !! url) = JsObject o ->
  fromObject (cv_policy o) = Some pol ->
  satisfiesWithoutRevalidation t1 pol opts = false ->
  baseFetch t1 url
    (mkOptions (method opts) (revalidationHeaders pol opts) (req_body opts))
    = (lat, inl resp) ->
  let revalidation := revalidatedPolicy (t1 + lat) pol opts resp in
  let newResponse :=
    if snd revalidation then resp
    else TextResponse (cv_text o) (responseHeaders t1 pol) in
  let newCacheValue :=
    mkCacheValue (cv_text o) (res_headers newResponse) (blob_size newResponse)
      (Some (toObject (fst revalidation))) in
  let t2 := t1 + lat + 2000 in
  let expiry := timeToLive t2 (fst revalidation) in
  request (7 + n) t0 st url options =
  mkWorld (t2 + store_latency) (<[url := JsObject newCacheValue]> st) [] []
    (stale_head t0 t1 url opts o pol ++
     (if lat <? 10 then
        [(t1 + lat, FetchSettled url (inl resp));
         (t1 + lat, Console (LogModified (snd revalidation)));
         (t1 + 10, Dispatch "response-stale-revalidating" url)]
      else
        [(t1 + 10, Dispatch "response-stale-revalidating" url);
         (t1 + lat, FetchSettled url (inl resp));
         (t1 + lat, Console (LogModified (snd revalidation)))]) ++
     [(t2, Console (LogCaching url expiry));
      (t2, StoreSet url newCacheValue expiry);
      (t2 + store_latency, Dispatch "response-revalidated" url)]).
Proof.
  intros Hst Hp Hf Hb. start Hst. rewrite Hp. cbn. rewrite Hf. cbn.
  unfold revalidateCacheHit, fetch. cbn. rewrite Hp. cbn. rewrite Hb. cbn.
  destruct (N.ltb_spec lat 10); arith; cbn; arith;
    unfold revalidateCacheHit_then; cbn; arith; cbn; arith;
    unfold revalidateCacheHit_blob, cache_set; cbn; arith; by rewrite run_quiescent.
Qed.

Lemma run_miss_rejected lat e n :
  default JsUndefined (st !! url) = JsUndefined ->
  baseFetch t1 url opts = (lat, inr e) ->
  request (3 + n) t0 st url options =
  mkWorld (t1 + lat) st [] []
    [(t0, StoreGet url); (t1, Console (LogOptionsNew opts));
     (t1, Console (LogCache JsUndefined)); (t1, Console (LogCacheMiss url));
     (t1, FetchStart url opts);
     (t1 + lat, FetchSettled url (inr e));
     (t1 + lat, CallerSettled url (inr e))].
Proof.
  intros Hst Hb. start Hst. unfold handleCacheMiss, fetch. cbn.
  rewrite Hb. cbn. arith. by rewrite run_quiescent.
Qed.

Lemma run_miss_not_storable lat resp n :
  default JsUndefined (st !! url) = JsUndefined ->
  baseFetch t1 url opts = (lat, inl resp) ->
  storable (newPolicy (t1 + lat) opts resp cachePolicyOptions) = false ->
  request (3 + n) t0 st url options =
  mkWorld (t1 + lat) st [] []
    [(t0, StoreGet url); (t1, Console (LogOptionsNew opts));
     (t1, Console (LogCache JsUndefined)); (t1, Console (LogCacheMiss url));
     (t1, FetchStart url opts);
     (t1 + lat, FetchSettled url (inl resp));
     (t1 + lat, Console (LogNotCacheable url));
     (t1 + lat, CallerSettled url (inl resp))].
Proof.
  intros Hst Hb Hs. start Hst. unfold handleCacheMiss, fetch. cbn.
  rewrite Hb. cbn. arith. unfold handleCacheMiss_then. cbn. rewrite Hs. cbn.
  by rewrite run_quiescent.
Qed.

Lemma run_miss_storable lat resp n :
  default JsUndefined (st !! url) = JsUndefined ->
  baseFetch t1 url opts = (lat, inl resp) ->
  let cachePolicy := newPolicy (t1 + lat) opts resp cachePolicyOptions in
  storable cachePolicy = true ->
  let cacheValue :=
    mkCacheValue (Some (res_body resp)) (res_headers resp) (blob_size resp)
      (Some (toObject cachePolicy)) in
  let expiry := timeToLive (t1 + lat) cachePolicy in
  request (6 + n) t0 st url options =
  mkWorld (t1 + lat + store_latency) (<[url := JsObject cacheValue]> st) [] []
    [(t0, StoreGet url); (t1, Console (LogOptionsNew opts));
     (t1, Console (LogCache JsUndefined)); (t1, Console (LogCacheMiss url));
     (t1, FetchStart url opts);
     (t1 + lat, FetchSettled url (inl resp));
     (t1 + lat, Console (LogBaseFetchHeaders (res_headers resp) opts));
     (t1 + lat, Console (LogCaching url expiry));
     (t1 + lat, StoreSet url cacheValue expiry);
     (t1 + lat, CallerSettled url (inl resp))].
Proof.
  intros Hst Hb cachePolicy Hs. start Hst. unfold handleCacheMiss, fetch. cbn.
  rewrite Hb. cbn. arith. unfold handleCacheMiss_then. cbn.
  fold cachePolicy. rewrite Hs. cbn.
  unfold handleCacheMiss_blob, cache_set. cbn. arith.
  by rewrite run_quiescent.
Qed.

(** The world at the moment the caller of a stale hit is served: the
    revalidation request is in flight, its [then] callback and the 10 ms
    timer are pending. *)
Lemma run_stale_served o pol lat r :
  default JsUndefined (st !! url) = JsObject o ->
  fromObject (cv_policy o) = Some pol ->
  satisfiesWithoutRevalidation t1 pol opts = false ->
  baseFetch t1 url
    (mkOptions (method opts) (revalidationHeaders pol opts) (req_body opts))
    = (lat, r) ->
  request 2 t0 st url options =
  mkWorld t1 st []
    (enqueue (t1 + lat)
       (KRevalSettled url (cv_text o) (responseHeaders t1 pol) pol opts r)
       [(t1 + 10, KStaleEvent url)])
    (stale_head t0 t1 url opts o pol).
Proof.
  intros Hst Hp Hf Hb. start Hst. rewrite Hp. cbn. rewrite Hf. cbn.
  unfold revalidateCacheHit, fetch. cbn. rewrite Hp. cbn. rewrite Hb. done.
Qed.

Lemma existsb_prefix {A} (p : A -> bool) (l1 l2 : list A) :
  l1 `prefix_of` l2 -> existsb p l2 = false -> existsb p l1 = false.
Proof. intros [k ->]. rewrite existsb_app. by intros [-> _]%orb_false_iff. Qed.

Lemma events_mono n m :
  (n <= m)%nat ->
  events (request n t0 st url options) `prefix_of` events (request m t0 st url options).
Proof.
  intros Hnm. unfold events, request.
  replace m with (n + (m - n))%nat by lia. rewrite run_add.
  destruct (run_trace (m - n) (run n (wrapFetch store_latency url options (idle t0 st))))
    as [k ->].
  rewrite fmap_app. by apply prefix_app_r.
Qed.

(** ** The claims *)

(** C5.  A stored entry that is still fresh is answered from the store: the
    caller receives the response built, by [new Response], from the stored
    text and the headers the stored policy reconstructs; its body is that
    text, it carries every one of those headers (their names being in lower
    case), and the transport is not called at any point of the run. *)
Theorem fresh_hit_served_from_store o text pol n :
  st !! url = Some (JsObject o) ->
  cv_text o = Some text ->
  fromObject (cv_policy o) = Some pol ->
  satisfiesWithoutRevalidation t1 pol opts = true ->
  (2 <= n)%nat ->
  let response := TextResponse (Some text) (responseHeaders t1 pol) in
  let w := request n t0 st url options in
  quiescent w /\
  List.filter is_caller_settled (events w) = [CallerSettled url (inl response)] /\
  res_body response = text /\
  ((forall name value,
      responseHeaders t1 pol !! name = Some value -> toLowerCase name = name) ->
   forall name value,
     responseHeaders t1 pol !! name = Some value ->
     res_headers response !! name = Some value) /\
  (forall m, existsb is_fetch_start (events (request m t0 st url options)) = false) /\
  store w = st.
Proof.
  intros Hst Ht Hp Hf Hn response w. subst response w.
  assert (forall k, request (2 + k) t0 st url options = request (2 + 0) t0 st url options)
    as Hdone by (intros k; by rewrite !(run_fresh o pol) by (by rewrite ?Hst)).
  split; [|split; [|split; [|split; [|split]]]].
  - replace n with (2 + (n - 2))%nat by lia.
    by rewrite (run_fresh o pol) by (by rewrite ?Hst).
  - replace n with (2 + (n - 2))%nat by lia.
    rewrite (run_fresh o pol) by (by rewrite ?Hst).
    by rewrite Ht.
  - apply TextResponse_body.
  - apply TextResponse_carries.
  - intros m. apply (existsb_prefix _ _ _ (events_mono m (2 + m) ltac:(lia))).
    by rewrite (run_fresh o pol) by (by rewrite ?Hst).
  - replace n with (2 + (n - 2))%nat by lia.
    by rewrite (run_fresh o pol) by (by rewrite ?Hst).
Qed.

(** C4.  On a stale hit the caller is served at once: its promise resolves,
    at the time the store read completes, with the response built, by
    [new Response], from the stored text and the headers the stored policy
    reconstructs, whose body is that text and which carries every one of
    those headers (their names being in lower case), while the revalidation
    request is still in flight; the settlement of the transport and the
    store write come later. *)
Theorem stale_hit_served_without_waiting o text pol n :
  st !! url = Some (JsObject o) ->
  cv_text o = Some text ->
  fromObject (cv_policy o) = Some pol ->
  satisfiesWithoutRevalidation t1 pol opts = false ->
  (7 <= n)%nat ->
  let response := TextResponse (Some text) (responseHeaders t1 pol) in
  let served := CallerSettled url (inl response) in
  let w := request n t0 st url options in
  res_body response = text /\
  ((forall name value,
      responseHeaders t1 pol !! name = Some value -> toLowerCase name = name) ->
   forall name value,
     responseHeaders t1 pol !! name = Some value ->
     res_headers response !! name = Some value) /\
  last (trace (request 2 t0 st url options)) = Some (t1, served) /\
  existsb is_fetch_settled (events (request 2 t0 st url options)) = false /\
  macrotasks (request 2 t0 st url options) <> [] /\
  List.filter is_caller_settled (events w) = [served] /\
  beforeb is_caller_settled is_fetch_settled (events w) = true /\
  beforeb is_fetch_settled is_caller_settled (events w) = false /\
  beforeb is_store_set is_caller_settled (events w) = false.
Proof.
  intros Hst Ht Hp Hf Hn response served w. subst response served w.
  split; [apply TextResponse_body|]. split; [apply TextResponse_carries|].
  destruct (baseFetch t1 url
    (mkOptions (method opts) (revalidationHeaders pol opts) (req_body opts)))
    as [lat r] eqn:Hb.
  rewrite (run_stale_served o pol lat r) by (by rewrite ?Hst).
  unfold stale_head. rewrite Ht. cbn [trace macrotasks].
  split; [done|]. split; [done|]. split; [cbn [enqueue]; by destruct (_ <? _)|].
  replace n with (7 + (n - 7))%nat by lia.
  destruct r as [resp|e].
  - rewrite (run_stale_resolved o pol lat resp) by (by rewrite ?Hst).
    unfold events, stale_head. rewrite Ht. cbn [trace].
    by destruct (lat <? 10).
  - change (7 + (n - 7))%nat with (4 + (3 + (n - 7)))%nat.
    rewrite (run_stale_rejected o pol lat e) by (by rewrite ?Hst).
    unfold events, stale_head. rewrite Ht. cbn [trace].
    by destruct (lat <? 10).
Qed.

(** C7.  When the revalidation request of a stale hit is rejected, nothing
    is written to the store at any point of the run, the caller keeps the
    stale response it was given and sees no failure, and nothing is left
    scheduled: the transport was called once and is not called again. *)
Theorem failed_revalidation_leaves_store o text pol lat e n :
  st !! url = Some (JsObject o) ->
  cv_text o = Some text ->
  fromObject (cv_policy o) = Some pol ->
  satisfiesWithoutRevalidation t1 pol opts = false ->
  baseFetch t1 url
    (mkOptions (method opts) (revalidationHeaders pol opts) (req_body opts))
    = (lat, inr e) ->
  (4 <= n)%nat ->
  let w := request n t0 st url options in
  quiescent w /\
  store w = st /\
  (forall m, existsb is_store_set (events (request m t0 st url options)) = false) /\
  List.filter is_caller_settled (events w) =
    [CallerSettled url (inl (TextResponse (Some text) (responseHeaders t1 pol)))] /\
  length (List.filter is_fetch_start (events w)) = 1%nat.
Proof.
  intros Hst Ht Hp Hf Hb Hn w. subst w.
  split; [|split; [|split]].
  - replace n with (4 + (n - 4))%nat by lia.
    by rewrite (run_stale_rejected o pol lat e) by (by rewrite ?Hst).
  - replace n with (4 + (n - 4))%nat by lia.
    by rewrite (run_stale_rejected o pol lat e) by (by rewrite ?Hst).
  - intros m. apply (existsb_prefix _ _ _ (events_mono m (4 + m) ltac:(lia))).
    rewrite (run_stale_rejected o pol lat e) by (by rewrite ?Hst).
    unfold events, stale_head. cbn [trace]. by destruct (lat <? 10).
  - replace n with (4 + (n - 4))%nat by lia.
    rewrite (run_stale_rejected o pol lat e) by (by rewrite ?Hst).
    unfold events, stale_head. rewrite Ht. cbn [trace].
    by destruct (lat <? 10).
Qed.

Ltac mem := apply list_elem_of_In; cbn; repeat ((left; reflexivity) || right).

(** C3, as the code has it.  On a stale hit the transport is called first and
    [response-stale-revalidating] is dispatched 10 ms later, never before the
    call; when the transport answers, [response-revalidated] is dispatched
    after the answer, after the merge and after the store write. *)
Theorem stale_event_follows_fetch_start o pol n :
  st !! url = Some (JsObject o) ->
  fromObject (cv_policy o) = Some pol ->
  satisfiesWithoutRevalidation t1 pol opts = false ->
  (7 <= n)%nat ->
  let revalidating := is_dispatch "response-stale-revalidating" in
  let revalidated := is_dispatch "response-revalidated" in
  let w := request n t0 st url options in
  (exists revalidationOptions, (t1, FetchStart url revalidationOptions) ∈ trace w) /\
  (t1 + 10, Dispatch "response-stale-revalidating" url) ∈ trace w /\
  beforeb is_fetch_start revalidating (events w) = true /\
  beforeb revalidating is_fetch_start (events w) = false /\
  (forall lat resp,
     baseFetch t1 url
       (mkOptions (method opts) (revalidationHeaders pol opts) (req_body opts))
       = (lat, inl resp) ->
     beforeb is_fetch_settled is_store_set (events w) = true /\
     beforeb is_store_set revalidated (events w) = true /\
     beforeb revalidated is_store_set (events w) = false /\
     beforeb revalidated is_fetch_settled (events w) = false /\
     beforeb revalidating revalidated (events w) = true).
Proof.
  intros Hst Hp Hf Hn revalidating revalidated w. subst revalidating revalidated w.
  destruct (baseFetch t1 url
    (mkOptions (method opts) (revalidationHeaders pol opts) (req_body opts)))
    as [lat r] eqn:Hb.
  replace n with (7 + (n - 7))%nat by lia.
  destruct r as [resp|e].
  - rewrite (run_stale_resolved o pol lat resp) by (by rewrite ?Hst).
    unfold events, stale_head. cbn [trace].
    split; [eexists; mem|]. split; [destruct (lat <? 10); mem|].
    split; [by destruct (lat <? 10)|]. split; [by destruct (lat <? 10)|].
    intros ? ? [= <- <-]. by destruct (lat <? 10).
  - change (7 + (n - 7))%nat with (4 + (3 + (n - 7)))%nat.
    rewrite (run_stale_rejected o pol lat e) by (by rewrite ?Hst).
    unfold events, stale_head. cbn [trace].
    split; [eexists; mem|]. split; [destruct (lat <? 10); mem|].
    split; [by destruct (lat <? 10)|]. split; [by destruct (lat <? 10)|].
    intros ? ? [=].
Qed.

(** The entry a successful revalidation writes: [text] is the text that was
    stored before, whatever the outcome; headers and size are those of
    [newResponse]. *)
Lemma revalidated_entry o pol lat resp n :
  st !! url = Some (JsObject o) ->
  fromObject (cv_policy o) = Some pol ->
  satisfiesWithoutRevalidation t1 pol opts = false ->
  baseFetch t1 url
    (mkOptions (method opts) (revalidationHeaders pol opts) (req_body opts))
    = (lat, inl resp) ->
  (7 <= n)%nat ->
  let revalidation := revalidatedPolicy (t1 + lat) pol opts resp in
  let newResponse :=
    if snd revalidation then resp
    else TextResponse (cv_text o) (responseHeaders t1 pol) in
  store (request n t0 st url options) !! url =
    Some (JsObject (mkCacheValue (cv_text o) (res_headers newResponse) (blob_size newResponse)
                      (Some (toObject (fst revalidation))))).
Proof.
  intros Hst Hp Hf Hb Hn. cbn zeta.
  replace n with (7 + (n - 7))%nat by lia.
  rewrite (run_stale_resolved o pol lat resp) by (by rewrite ?Hst).
  cbn [store]. by rewrite lookup_insert_eq.
Qed.

(** C6, as the code has it.  After a revalidation that reports no
    modification the entry keeps the stored text, takes the revalidated
    policy as its snapshot, and records as headers those of the response
    [new Response] builds from the stored text and the headers the previous
    policy reconstructed when the request came in (the headers served to the
    caller), with the byte length of the text as size. *)
Theorem not_modified_keeps_body_and_served_headers o pol lat resp n :
  st !! url = Some (JsObject o) ->
  fromObject (cv_policy o) = Some pol ->
  satisfiesWithoutRevalidation t1 pol opts = false ->
  baseFetch t1 url
    (mkOptions (method opts) (revalidationHeaders pol opts) (req_body opts))
    = (lat, inl resp) ->
  snd (revalidatedPolicy (t1 + lat) pol opts resp) = false ->
  (7 <= n)%nat ->
  exists entry,
    store (request n t0 st url options) !! url = Some (JsObject entry) /\
    cv_text entry = cv_text o /\
    cv_policy entry = Some (toObject (fst (revalidatedPolicy (t1 + lat) pol opts resp))) /\
    cv_headers entry
    = res_headers (TextResponse (cv_text o) (responseHeaders t1 pol)) /\
    cv_size entry = String.length (default "" (cv_text o)).
Proof.
  intros Hst Hp Hf Hb Hm Hn. eexists. split.
  - by apply (revalidated_entry o pol lat resp).
  - rewrite Hm. by repeat split.
Qed.

(** C2, as the code has it.  For a URL that contains [without_caching.xml]
    the store is still read, first of all; the options built for the request
    carry [cache-control: no-cache, no-store]; on a miss they are the request
    given to the transport, and the store is written exactly when the policy
    built from them and the response is storable. *)
Theorem no_store_url_still_reads_store :
  includes url "without_caching.xml" = true ->
  carries_no_store opts = true /\
  (forall n, exists rest,
     trace (request n t0 st url options) = (t0, StoreGet url) :: rest) /\
  (st !! url = None ->
   forall n, (6 <= n)%nat ->
     let w := request n t0 st url options in
     let '(lat, r) := baseFetch t1 url opts in
     List.filter is_fetch_start (events w) = [FetchStart url opts] /\
     existsb is_store_set (events w) =
       match r with
       | inl resp => storable (newPolicy (t1 + lat) opts resp cachePolicyOptions)
       | inr _ => false
       end).
Proof.
  intros Hu. split; [|split].
  - unfold carries_no_store, optionsNew. rewrite Hu. cbn.
    apply bool_decide_eq_true. by rewrite lookup_insert_eq.
  - intros n. destruct (run_trace n (wrapFetch store_latency url options (idle t0 st)))
      as [k Hk]. exists k. apply Hk.
  - intros Hst n Hn w. subst w.
    destruct (baseFetch t1 url opts) as [lat r] eqn:Hb.
    destruct r as [resp|e].
    + destruct (storable (newPolicy (t1 + lat) opts resp cachePolicyOptions)) eqn:Hs.
      * replace n with (6 + (n - 6))%nat by lia.
        by rewrite (run_miss_storable lat resp) by (by rewrite ?Hst).
      * replace n with (3 + (n - 3))%nat by lia.
        by rewrite (run_miss_not_storable lat resp) by (by rewrite ?Hst).
    + replace n with (3 + (n - 3))%nat by lia.
      by rewrite (run_miss_rejected lat e) by (by rewrite ?Hst).
Qed.

(** C8, as the code has it.  A stored value that is malformed is not treated
    as a miss: it goes to the hit path, the error raised there rejects the
    caller's promise, the transport is not called and the store is left as
    it was. *)
Theorem malformed_entry_rejects v n :
  st !! url = Some v ->
  malformed v = true ->
  (2 <= n)%nat ->
  let w := request n t0 st url options in
  quiescent w /\
  store w = st /\
  (exists err, List.filter is_caller_settled (events w) = [CallerSettled url (inr err)]
               /\ cache_error err = true) /\
  existsb is_log_miss (events w) = false /\
  existsb is_fetch_start (events w) = false /\
  existsb is_store_set (events w) = false.
Proof.
  intros Hst Hv Hn w. subst w.
  replace n with (2 + (n - 2))%nat by lia.
  destruct v as [| |o]; [done| |].
  - rewrite run_null by (by rewrite Hst). repeat split; eauto.
  - simpl in Hv. destruct (fromObject (cv_policy o)) eqn:Hp; [done|].
    rewrite (run_malformed o) by (by rewrite ?Hst). repeat split; eauto.
Qed.

(** C10.  The miss path is taken exactly when the store returned
    [undefined].  Anything else goes to the hit path, which hands the
    [policy] property to [CachePolicy.fromObject] as it is: [null] fails in
    the destructuring, an object whose policy is refused fails in
    [fromObject], and an object whose policy is accepted is a hit whatever
    its other properties are. *)
Theorem miss_only_when_undefined n :
  (7 <= n)%nat ->
  let got := default JsUndefined (st !! url) in
  let w := request n t0 st url options in
  existsb is_log_miss (events w) = is_undefined got /\
  (got = JsNull ->
   exists msg, List.filter is_caller_settled (events w)
               = [CallerSettled url (inr (TypeError msg))]) /\
  (forall o, got = JsObject o -> fromObject (cv_policy o) = None ->
     List.filter is_caller_settled (events w) = [CallerSettled url (inr PolicyError)]) /\
  (forall o pol, got = JsObject o -> fromObject (cv_policy o) = Some pol ->
     existsb is_log_hit (events w) = true).
Proof.
  intros Hn got w. subst w.
  destruct (default JsUndefined (st !! url)) as [| |o] eqn:Hst; subst got.
  - (* undefined: the miss path *)
    split; [|by repeat split].
    destruct (baseFetch t1 url opts) as [lat [resp|e]] eqn:Hb.
    + destruct (storable (newPolicy (t1 + lat) opts resp cachePolicyOptions)) eqn:Hs.
      * replace n with (6 + (n - 6))%nat by lia.
        by rewrite (run_miss_storable lat resp).
      * replace n with (3 + (n - 3))%nat by lia.
        by rewrite (run_miss_not_storable lat resp).
    + replace n with (3 + (n - 3))%nat by lia.
      by rewrite (run_miss_rejected lat e).
  - (* null *)
    replace n with (2 + (n - 2))%nat by lia. rewrite run_null by done.
    repeat split; eauto; done.
  - destruct (fromObject (cv_policy o)) as [pol|] eqn:Hp.
    + assert (existsb is_log_miss (events (request n t0 st url options)) = false /\
              existsb is_log_hit (events (request n t0 st url options)) = true)
        as [Hmiss Hhit].
      { destruct (satisfiesWithoutRevalidation t1 pol opts) eqn:Hf.
        - replace n with (2 + (n - 2))%nat by lia.
          by rewrite (run_fresh o pol).
        - destruct (baseFetch t1 url
            (mkOptions (method opts) (revalidationHeaders pol opts) (req_body opts)))
            as [lat [resp|e]] eqn:Hb.
          + replace n with (7 + (n - 7))%nat by lia.
            rewrite (run_stale_resolved o pol lat resp) by done.
            unfold events, stale_head. cbn [trace]. by destruct (lat <? 10).
          + replace n with (4 + (n - 4))%nat by lia.
            rewrite (run_stale_rejected o pol lat e) by done.
            unfold events, stale_head. cbn [trace]. by destruct (lat <? 10). }
      split; [done|]. split; [done|]. split; [|done].
      intros o' [= <-]. congruence.
    + replace n with (2 + (n - 2))%nat by lia. rewrite (run_malformed o) by done.
      repeat split; try done. intros o' pol' [= <-]. congruence.
Qed.

End Call.

Section MethodCase.
Variables (t0 : N) (st : gmap string (JsValue PolicyObj)) (url : string).

Lemma optionsNew_case (o1 o2 : RequestOptions) :
  toUpperCase <$> method o1 = toUpperCase <$> method o2 ->
  req_headers o1 = req_headers o2 ->
  req_body o1 = req_body o2 ->
  optionsNew url o1 = optionsNew url o2.
Proof. intros Hm Hh Hb. unfold optionsNew. by rewrite Hm, Hh, Hb. Qed.

(** C9, as the code has it.  The store is looked up by the URL alone, and
    the lookup is issued with the request as the caller gave it; the method
    is put in upper case when the lookup has returned, before the hit and miss
    paths see the request.  Two requests that differ only in the letter case
    of the method are looked up under the same key and run exactly alike. *)
Theorem method_case_never_changes_outcome (o1 o2 : RequestOptions) :
  toUpperCase <$> method o1 = toUpperCase <$> method o2 ->
  req_headers o1 = req_headers o2 ->
  req_body o1 = req_body o2 ->
  trace (request 0 t0 st url o1) = [(t0, StoreGet url)] /\
  awaiting_lookup (request 0 t0 st url o1) = [o1] /\
  method (optionsNew url o1) = toUpperCase <$> method o1 /\
  method_normalized (optionsNew url o1) = true /\
  (forall n, trace (request n t0 st url o1) = trace (request n t0 st url o2)) /\
  (forall n, (0 < n)%nat -> request n t0 st url o1 = request n t0 st url o2).
Proof.
  intros Hm Hh Hb.
  assert (forall n, (0 < n)%nat -> request n t0 st url o1 = request n t0 st url o2)
    as Hrun.
  { intros [|n] Hn; [lia|].
    unfold request, wrapFetch, cachedFetch, cache_get, idle. cbn.
    unfold cachedFetch_resume. by rewrite (optionsNew_case o1 o2). }
  split; [done|]. split; [done|].
  split; [unfold optionsNew; by destruct (negb _)|].
  split.
  { apply bool_decide_eq_true. unfold optionsNew.
    destruct (negb _); cbn; destruct (method o1); cbn; by rewrite ?toUpperCase_idem. }
  split; [|done].
  intros [|n]; [done|]. by rewrite Hrun by lia.
Qed.

End MethodCase.

(** ** Beyond the claims: the miss path, counts, invariants *)

Section Beyond.
Variables (t0 : N) (st : gmap string (JsValue PolicyObj)) (url : string)
  (options : RequestOptions).

Local Abbreviation opts := (optionsNew url options).
Local Abbreviation t1 := (t0 + store_latency).
Local Abbreviation got := (default JsUndefined (st !! url)).

Lemma optionsNew_method_normalized u o : method_normalized (optionsNew u o) = true.
Proof.
  apply bool_decide_eq_true. unfold optionsNew.
  destruct (negb _); cbn; destruct (method o); cbn; by rewrite ?toUpperCase_idem.
Qed.

Lemma trace_mono n m :
  (n <= m)%nat ->
  trace (request n t0 st url options) `prefix_of` trace (request m t0 st url options).
Proof.
  intros Hnm. unfold request.
  replace m with (n + (m - n))%nat by lia. rewrite run_add. apply run_trace.
Qed.

(** Every complete run is one of eight, told apart by what the store
    returned, what the policy says and what the transport answered. *)
Ltac paths n :=
  destruct (default JsUndefined (st !! url)) as [| |o] eqn:Hgot;
  [ destruct (baseFetch t1 url opts) as [lat [resp|e]] eqn:Hb;
    [ destruct (storable (newPolicy (t1 + lat) opts resp cachePolicyOptions)) eqn:Hs;
      [ replace n with (6 + (n - 6))%nat by lia;
        rewrite (run_miss_storable t0 st url options lat resp) by done
      | replace n with (3 + (n - 3))%nat by lia;
        rewrite (run_miss_not_storable t0 st url options lat resp) by done ]
    | replace n with (3 + (n - 3))%nat by lia;
      rewrite (run_miss_rejected t0 st url options lat e) by done ]
  | replace n with (2 + (n - 2))%nat by lia;
    rewrite (run_null t0 st url options) by done
  | destruct (fromObject (cv_policy o)) as [pol|] eqn:Hp;
    [ destruct (satisfiesWithoutRevalidation t1 pol opts) eqn:Hf;
      [ replace n with (2 + (n - 2))%nat by lia;
        rewrite (run_fresh t0 st url options o pol) by done
      | destruct (baseFetch t1 url
          (mkOptions (method opts) (revalidationHeaders pol opts) (req_body opts)))
          as [lat [resp|e]] eqn:Hb;
        [ replace n with (7 + (n - 7))%nat by lia;
          rewrite (run_stale_resolved t0 st url options o pol lat resp) by done
        | replace n with (4 + (n - 4))%nat by lia;
          rewrite (run_stale_rejected t0 st url options o pol lat e) by done ] ]
    | replace n with (2 + (n - 2))%nat by lia;
      rewrite (run_malformed t0 st url options o) by done ] ];
  unfold events, stale_head; cbn [trace store microtasks macrotasks].

(** X1.  On a miss, a rejection of the transport reaches the caller as it
    is, and nothing is written at any point of the run. *)
Theorem miss_rejection_reaches_caller lat e n :
  st !! url = None ->
  baseFetch t1 url opts = (lat, inr e) ->
  (3 <= n)%nat ->
  let w := request n t0 st url options in
  quiescent w /\
  (t1 + lat, CallerSettled url (inr e)) ∈ trace w /\
  List.filter is_caller_settled (events w) = [CallerSettled url (inr e)] /\
  store w = st /\
  (forall m, existsb is_store_set (events (request m t0 st url options)) = false).
Proof.
  intros Hst Hb Hn w. subst w.
  assert (forall k, request (3 + k) t0 st url options = request (3 + 0) t0 st url options)
    as Hdone.
  { intros k. by rewrite !(run_miss_rejected t0 st url options lat e) by (by rewrite ?Hst). }
  replace n with (3 + (n - 3))%nat by lia. rewrite Hdone.
  rewrite (run_miss_rejected t0 st url options lat e) by (by rewrite ?Hst).
  split; [done|]. split; [apply list_elem_of_In; cbn; tauto|]. split; [done|].
  split; [done|].
  intros m.
  apply (existsb_prefix _ _ _ (events_mono t0 st url options m (3 + m) ltac:(lia))).
  by rewrite (run_miss_rejected t0 st url options lat e) by (by rewrite ?Hst).
Qed.

(** X2.  On a miss, a response the policy does not allow to store is handed
    to the caller as it came, and nothing is written at any point of the
    run. *)
Theorem miss_not_storable_passes_through lat resp n :
  st !! url = None ->
  baseFetch t1 url opts = (lat, inl resp) ->
  storable (newPolicy (t1 + lat) opts resp cachePolicyOptions) = false ->
  (3 <= n)%nat ->
  let w := request n t0 st url options in
  quiescent w /\
  List.filter is_caller_settled (events w) = [CallerSettled url (inl resp)] /\
  store w = st /\
  (forall m, existsb is_store_set (events (request m t0 st url options)) = false).
Proof.
  intros Hst Hb Hs Hn w. subst w.
  replace n with (3 + (n - 3))%nat by lia.
  rewrite (run_miss_not_storable t0 st url options lat resp) by (by rewrite ?Hst).
  split; [done|]. split; [done|]. split; [done|].
  intros m.
  apply (existsb_prefix _ _ _ (events_mono t0 st url options m (3 + m) ltac:(lia))).
  by rewrite (run_miss_not_storable t0 st url options lat resp) by (by rewrite ?Hst).
Qed.

(** X3.  On a miss, a storable response is handed to the caller and written
    once under the URL: its text, its headers, its size in bytes and the
    snapshot of its policy, with the policy's time to live as expiry; a
    lookup of the URL then returns that entry. *)
Theorem miss_storable_caches_response lat resp n :
  st !! url = None ->
  baseFetch t1 url opts = (lat, inl resp) ->
  let cachePolicy := newPolicy (t1 + lat) opts resp cachePolicyOptions in
  storable cachePolicy = true ->
  (6 <= n)%nat ->
  let entry :=
    mkCacheValue (Some (res_body resp)) (res_headers resp)
      (String.length (res_body resp)) (Some (toObject cachePolicy)) in
  let w := request n t0 st url options in
  quiescent w /\
  List.filter is_caller_settled (events w) = [CallerSettled url (inl resp)] /\
  List.filter is_store_set (events w)
    = [StoreSet url entry (timeToLive (t1 + lat) cachePolicy)] /\
  store w !! url = Some (JsObject entry).
Proof.
  intros Hst Hb cachePolicy Hs Hn entry w. subst w.
  replace n with (6 + (n - 6))%nat by lia.
  rewrite (run_miss_storable t0 st url options lat resp) by (by rewrite ?Hst).
  split; [done|]. split; [done|]. split; [done|].
  cbn [store]. by rewrite lookup_insert_eq.
Qed.

(** X5.  Whatever the path, a request given to the transport has its method
    in upper case. *)
Theorem transport_sees_upper_case_method n :
  (7 <= n)%nat ->
  forallb fetch_method_normalized (events (request n t0 st url options)) = true.
Proof.
  intros Hn. pose proof (optionsNew_method_normalized url options) as Hm.
  paths n; try destruct (lat <? 10); cbn;
    unfold method_normalized in *; cbn; by rewrite ?Hm.
Qed.

(** X7.  A call reads the store exactly once, calls the transport at most
    once and writes the store at most once, always for the URL it was
    given. *)
Theorem one_read_one_call_one_write n :
  (7 <= n)%nat ->
  let tr := events (request n t0 st url options) in
  List.filter is_store_get tr = [StoreGet url] /\
  (length (List.filter is_fetch_start tr) <= 1)%nat /\
  (length (List.filter is_store_set tr) <= 1)%nat /\
  forallb (about_url url) tr = true.
Proof.
  intros Hn tr. subst tr.
  paths n; try destruct (lat <? 10); cbn; rewrite ?String.eqb_refl;
    repeat split; done || lia.
Qed.


(** X9.  Whenever an entry is written, it is written under the URL of the
    call, and the expiry given to the store is the time to live of the policy
    whose snapshot the entry holds, taken at the time of the write. *)
Theorem write_expiry_is_time_to_live n t u v expiry :
  (7 <= n)%nat ->
  (t, StoreSet u v expiry) ∈ trace (request n t0 st url options) ->
  u = url /\
  exists policy, cv_policy v = Some (toObject policy) /\ expiry = timeToLive t policy.
Proof.
  intros Hn.
  paths n; try destruct (lat <? 10); cbn; intros Hin; apply list_elem_of_In in Hin;
    cbn in Hin; intuition; simplify_eq; eauto.
Qed.

(** X11.  An event is dispatched exactly when the call is a stale hit: a
    miss, a fresh hit and an unusable entry dispatch nothing. *)
Theorem events_only_on_stale_hit n :
  (7 <= n)%nat ->
  existsb is_any_dispatch (events (request n t0 st url options))
  = is_stale_hit t1 got opts.
Proof.
  intros Hn. unfold is_stale_hit.
  paths n; rewrite ?Hp, ?Hf; try destruct (lat <? 10); done.
Qed.

(** X15.  A usable entry that has no text is served as an empty body, with
    status 200, not refused. *)
Theorem hit_without_text_serves_empty_body entry policy n :
  st !! url = Some (JsObject entry) ->
  cv_text entry = None ->
  fromObject (cv_policy entry) = Some policy ->
  (7 <= n)%nat ->
  exists headers,
    List.filter is_caller_settled (events (request n t0 st url options))
    = [CallerSettled url (inl (mkResponse 200 headers ""))].
Proof.
  intros Hst Ht Hp' Hn. exists (new_Headers (responseHeaders t1 policy)).
  paths n; rewrite ?Hst in Hgot; simplify_eq/=; unfold TextResponse; rewrite ?Ht;
    try destruct (lat <? 10); done.
Qed.

(** X10.  When the revalidation of a stale hit is answered and reported as
    modified, the entry written has the headers, the size and the policy of
    the new response, and the text of the entry it replaces. *)
Theorem modified_revalidation_entry o pol lat resp n :
  st !! url = Some (JsObject o) ->
  fromObject (cv_policy o) = Some pol ->
  satisfiesWithoutRevalidation t1 pol opts = false ->
  baseFetch t1 url
    (mkOptions (method opts) (revalidationHeaders pol opts) (req_body opts))
    = (lat, inl resp) ->
  snd (revalidatedPolicy (t1 + lat) pol opts resp) = true ->
  (7 <= n)%nat ->
  exists entry,
    store (request n t0 st url options) !! url = Some (JsObject entry) /\
    cv_text entry = cv_text o /\
    cv_headers entry = res_headers resp /\
    cv_size entry = String.length (res_body resp) /\
    cv_policy entry = Some (toObject (fst (revalidatedPolicy (t1 + lat) pol opts resp))).
Proof.
  intros Hst Hp Hf Hb Hm Hn. eexists. split.
  - by apply (revalidated_entry t0 st url options o pol lat resp).
  - rewrite Hm. by repeat split.
Qed.

(** X16.  The entry of an answered revalidation is written 2000 ms after the
    answer, not earlier at any point of the run, and
    [response-revalidated] is dispatched when the store has completed the
    write. *)
Theorem revalidation_write_is_delayed o pol lat resp n :
  st !! url = Some (JsObject o) ->
  fromObject (cv_policy o) = Some pol ->
  satisfiesWithoutRevalidation t1 pol opts = false ->
  baseFetch t1 url
    (mkOptions (method opts) (revalidationHeaders pol opts) (req_body opts))
    = (lat, inl resp) ->
  (7 <= n)%nat ->
  let w := request n t0 st url options in
  (t1 + lat, FetchSettled url (inl resp)) ∈ trace w /\
  (forall m t u v expiry,
     (t, StoreSet u v expiry) ∈ trace (request m t0 st url options) ->
     t = t1 + lat + 2000) /\
  (exists v expiry, (t1 + lat + 2000, StoreSet url v expiry) ∈ trace w) /\
  (t1 + lat + 2000 + store_latency, Dispatch "response-revalidated" url) ∈ trace w.
Proof.
  intros Hst Hp Hf Hb Hn w. subst w.
  assert (forall k, trace (request (7 + k) t0 st url options)
                    = trace (request (7 + 0) t0 st url options)) as Hdone.
  { intros k.
    by rewrite !(run_stale_resolved t0 st url options o pol lat resp) by (by rewrite ?Hst). }
  replace n with (7 + (n - 7))%nat by lia. rewrite Hdone.
  split; [|split; [|split]].
  - rewrite (run_stale_resolved t0 st url options o pol lat resp) by (by rewrite ?Hst).
    unfold stale_head. cbn [trace]. destruct (lat <? 10);
      apply list_elem_of_In; cbn; repeat ((left; reflexivity) || right).
  - intros m t u v expiry Hin.
    assert ((t, StoreSet u v expiry) ∈ trace (request (7 + 0) t0 st url options)) as Hin'.
    { rewrite <- (Hdone m).
      destruct (trace_mono m (7 + m) ltac:(lia)) as [k ->].
      apply elem_of_app. by left. }
    revert Hin'.
    rewrite (run_stale_resolved t0 st url options o pol lat resp) by (by rewrite ?Hst).
    unfold stale_head. cbn [trace]. intros Hin'. apply list_elem_of_In in Hin'.
    destruct (lat <? 10); cbn in Hin'; intuition; simplify_eq; done.
  - rewrite (run_stale_resolved t0 st url options o pol lat resp) by (by rewrite ?Hst).
    unfold stale_head. cbn [trace]. eexists _, _. destruct (lat <? 10);
      apply list_elem_of_In; cbn; repeat ((left; reflexivity) || right).
  - rewrite (run_stale_resolved t0 st url options o pol lat resp) by (by rewrite ?Hst).
    unfold stale_head. cbn [trace]. destruct (lat <? 10);
      apply list_elem_of_In; cbn; repeat ((left; reflexivity) || right).
Qed.

End Beyond.

(** *** A call never touches another key *)

Section Invariant.
Variable url : string.

Lemma keeps_refl (w : World Policy PolicyObj) : keeps url w w.
Proof. by split. Qed.

Lemma keeps_emit e (w0 w : World Policy PolicyObj) :
  keeps url w0 w -> keeps url w0 (emit e w).
Proof. intros [Ht Hs]. split; [intros H; apply (Ht H)|intros u Hu; apply (Hs u Hu)]. Qed.

Lemma keeps_queueMicrotask k (w0 w : World Policy PolicyObj) :
  task_url k = url -> keeps url w0 w -> keeps url w0 (queueMicrotask k w).
Proof.
  intros Hk [Ht Hs]. split; [|intros u Hu; apply (Hs u Hu)].
  intros H. destruct (Ht H) as [Hmi Hma]. split; [|done].
  cbn. apply Forall_app. split; [done|]. by apply Forall_singleton.
Qed.

Lemma enqueue_for due k q :
  task_url k = url ->
  Forall (fun dk : N * Task Policy PolicyObj => task_url dk.2 = url) q ->
  Forall (fun dk : N * Task Policy PolicyObj => task_url dk.2 = url) (enqueue due k q).
Proof.
  intros Hk. induction q as [|[d k'] q IH]; intros Hq; cbn.
  - by apply Forall_singleton.
  - destruct (due <? d).
    + by apply Forall_cons.
    + apply Forall_cons in Hq as [Hk' Hq]. apply Forall_cons. split; [done|by apply IH].
Qed.

Lemma keeps_setTimeout k delay (w0 w : World Policy PolicyObj) :
  task_url k = url -> keeps url w0 w -> keeps url w0 (setTimeout k delay w).
Proof.
  intros Hk [Ht Hs]. split; [|intros u Hu; apply (Hs u Hu)].
  intros H. destruct (Ht H) as [Hmi Hma]. split; [done|].
  cbn. by apply enqueue_for.
Qed.

Lemma keeps_cache_set v expiry k (w0 w : World Policy PolicyObj) :
  task_url k = url -> keeps url w0 w ->
  keeps url w0 (cache_set store_latency url v expiry k w).
Proof.
  intros Hk [Ht Hs]. unfold cache_set. apply keeps_setTimeout; [done|].
  split; [intros H; apply (Ht H)|].
  intros u Hu. cbn. rewrite lookup_insert_ne by done. by apply Hs.
Qed.

Lemma keeps_fetch options k (w0 w : World Policy PolicyObj) :
  (forall r, task_url (k r) = url) -> keeps url w0 w ->
  keeps url w0 (fetch baseFetch url options k w).
Proof.
  intros Hk Hw. unfold fetch. destruct (baseFetch (now w) url options) as [lat r].
  apply keeps_setTimeout; [done|]. by apply keeps_emit.
Qed.

Ltac keep :=
  repeat first
    [ apply keeps_refl
    | apply keeps_cache_set; [reflexivity|]
    | apply keeps_fetch; [intros; reflexivity|]
    | apply keeps_emit
    | apply keeps_queueMicrotask; [reflexivity|]
    | apply keeps_setTimeout; [reflexivity|] ].

Lemma run_task_keeps k w :
  task_url k = url -> keeps url w (run_task baseFetch store_latency k w).
Proof.
  intros Hk. destruct k; cbn in Hk; subst; cbn;
    unfold cachedFetch_resume, handleCacheHit, revalidateCacheHit, handleCacheMiss,
      handleCacheMiss_then, handleCacheMiss_text, handleCacheMiss_blob,
      revalidateCacheHit_then, revalidateCacheHit_blob;
    repeat case_match; simplify_eq; keep.
Qed.

Lemma step_keeps w w' :
  tasks_for url w -> step w = Some w' ->
  tasks_for url w' /\ forall u, u <> url -> store w' !! u = store w !! u.
Proof.
  intros [Hmi Hma]. unfold step.
  destruct (microtasks w) as [|k ks] eqn:Emi.
  - destruct (macrotasks w) as [|[due k] q] eqn:Ema; [done|].
    intros [= <-]. apply Forall_cons in Hma as [Hk Hq].
    destruct (run_task_keeps k (mkWorld (N.max (now w) due) (store w) [] q (trace w)) Hk)
      as [Ht Hs].
    split; [by apply Ht|apply Hs].
  - intros [= <-]. apply Forall_cons in Hmi as [Hk Hks].
    destruct (run_task_keeps k (mkWorld (now w) (store w) ks (macrotasks w) (trace w)) Hk)
      as [Ht Hs].
    split; [by apply Ht|apply Hs].
Qed.

Lemma run_keeps n w :
  tasks_for url w ->
  tasks_for url (run n w) /\ forall u, u <> url -> store (run n w) !! u = store w !! u.
Proof.
  revert w. induction n as [|n IH]; intros w Hw; cbn; [done|].
  destruct (step w) as [w'|] eqn:E; [|done].
  destruct (step_keeps w w' Hw E) as [Hw' Hs'].
  destruct (IH w' Hw') as [Hr Hs]. split; [done|].
  intros u Hu. by rewrite Hs, Hs'.
Qed.

(** X8.  At no point of its run does a call change what the store holds
    under another key. *)
Theorem other_keys_untouched t0 (st : gmap string (JsValue PolicyObj)) options n u :
  u <> url ->
  store (request n t0 st url options) !! u = st !! u.
Proof.
  intros Hu. unfold request.
  destruct (run_keeps n (wrapFetch store_latency url options (idle t0 st))) as [_ Hs].
  - split; [by apply Forall_nil|]. cbn. by apply Forall_singleton.
  - by rewrite Hs.
Qed.

End Invariant.

(** *** The request that is built *)

Lemma prefix_spec needle hay :
  String.prefix needle hay = true <-> exists post, hay = (needle +:+ post)%string.
Proof.
  revert hay. induction needle as [|c needle IH]; intros hay.
  - split; [intros _; by exists hay|by destruct hay].
  - destruct hay as [|c' hay]; [split; [done|by intros [post [=]]]|].
    cbn. destruct (Ascii.ascii_dec c c') as [<-|Hc].
    + rewrite IH. split; intros [post Hp]; exists post.
      * by rewrite Hp.
      * by injection Hp.
    + split; [done|]. intros [post Hp]. injection Hp as Hc' _. done.
Qed.

Lemma includes_spec hay needle :
  includes hay needle = true <->
  exists pre post, hay = (pre +:+ needle +:+ post)%string.
Proof.
  induction hay as [|c hay IH]; cbn [includes]; rewrite orb_true_iff, prefix_spec.
  - split.
    + intros [[post Hp]|[=]]. by exists "", post.
    + intros [[|c pre] [post Hp]]; [left; by exists post|done].
  - rewrite IH. split.
    + intros [[post Hp]|(pre & post & Hp)].
      * by exists "", post.
      * exists (String c pre), post. by rewrite Hp.
    + intros [[|c' pre] [post Hp]].
      * left. by exists post.
      * right. injection Hp as <- Hp. by exists pre, post.
Qed.

(** X13.  The no-cache directives are forced exactly for the URLs that have
    [without_caching.xml] somewhere in them; for every other URL the headers
    of the caller are passed on unchanged. *)
Theorem directives_forced_iff_marker_in_url url options :
  ((exists pre post, url = (pre +:+ "without_caching.xml" +:+ post)%string) ->
   req_headers (optionsNew url options) !! "cache-control"
   = Some "no-cache, no-store") /\
  (~ (exists pre post, url = (pre +:+ "without_caching.xml" +:+ post)%string) ->
   req_headers (optionsNew url options) = req_headers options).
Proof.
  unfold optionsNew. split; intros H.
  - apply includes_spec in H. rewrite H. cbn. by rewrite lookup_insert_eq.
  - destruct (includes url "without_caching.xml") eqn:E; [|done].
    by apply includes_spec in E.
Qed.

(** X12.  Building the request keeps the body and every header other than
    [cache-control] as the caller gave them, and doing it twice is the same
    as doing it once. *)
Theorem optionsNew_keeps_request url options :
  req_body (optionsNew url options) = req_body options /\
  (forall name, name <> "cache-control" ->
     req_headers (optionsNew url options) !! name = req_headers options !! name) /\
  optionsNew url (optionsNew url options) = optionsNew url options.
Proof.
  unfold optionsNew.
  destruct (includes url "without_caching.xml"); cbn; repeat split; try done.
  - intros name Hn. by rewrite lookup_insert_ne.
  - rewrite insert_insert_eq. f_equal.
    destruct (method options); cbn; by rewrite ?toUpperCase_idem.
  - f_equal. destruct (method options); cbn; by rewrite ?toUpperCase_idem.
Qed.

(** *** One call after another *)

Section Compose.
Variables (t0 : N) (st : gmap string (JsValue PolicyObj)) (url : string)
  (options : RequestOptions).
Variables (t' : N) (options' : RequestOptions).

Local Abbreviation opts := (optionsNew url options).
Local Abbreviation t1 := (t0 + store_latency).

(** X4.  What a miss has stored, a later call for the same URL that finds
    the policy fresh is served without a transport call: the response built,
    by [new Response], from the body of the response that was stored and the
    headers its policy reconstructs, with that body and with status 200
    whatever the status of the stored response was. *)
Theorem miss_then_fresh_hit lat resp n :
  st !! url = None ->
  baseFetch t1 url opts = (lat, inl resp) ->
  let cachePolicy := newPolicy (t1 + lat) opts resp cachePolicyOptions in
  storable cachePolicy = true ->
  fromObject (Some (toObject cachePolicy)) = Some cachePolicy ->
  satisfiesWithoutRevalidation (t' + store_latency) cachePolicy (optionsNew url options')
    = true ->
  (2 <= n)%nat ->
  let response :=
    TextResponse (Some (res_body resp))
      (responseHeaders (t' + store_latency) cachePolicy) in
  let st1 := store (request 6 t0 st url options) in
  let w := request n t' st1 url options' in
  List.filter is_caller_settled (events w) = [CallerSettled url (inl response)] /\
  res_body response = res_body resp /\
  status response = 200%nat /\
  (forall m, existsb is_fetch_start (events (request m t' st1 url options')) = false) /\
  store w = st1.
Proof.
  intros Hst Hb cachePolicy Hs Hrt Hf Hn response st1 w. subst response w.
  set (entry := mkCacheValue (Some (res_body resp)) (res_headers resp)
                  (blob_size resp) (Some (toObject cachePolicy))).
  assert (default JsUndefined (st1 !! url) = JsObject entry) as Hst1.
  { subst st1. change 6%nat with (6 + 0)%nat.
    rewrite (run_miss_storable t0 st url options lat resp) by (by rewrite ?Hst).
    cbn [store]. by rewrite lookup_insert_eq. }
  split; [|split; [done|split; [done|split]]].
  - replace n with (2 + (n - 2))%nat by lia.
    by rewrite (run_fresh t' st1 url options' entry cachePolicy).
  - intros m.
    apply (existsb_prefix _ _ _ (events_mono t' st1 url options' m (2 + m) ltac:(lia))).
    by rewrite (run_fresh t' st1 url options' entry cachePolicy).
  - replace n with (2 + (n - 2))%nat by lia.
    by rewrite (run_fresh t' st1 url options' entry cachePolicy).
Qed.

(** X17.  After an answered revalidation, modified or not, a later call that
    finds the revalidated policy fresh is served the response built, by
    [new Response], from the text that was stored before the revalidation and
    the headers the revalidated policy reconstructs; its body is that old
    text. *)
Theorem revalidation_then_fresh_hit o pol lat resp n :
  st !! url = Some (JsObject o) ->
  fromObject (cv_policy o) = Some pol ->
  satisfiesWithoutRevalidation t1 pol opts = false ->
  baseFetch t1 url
    (mkOptions (method opts) (revalidationHeaders pol opts) (req_body opts))
    = (lat, inl resp) ->
  let revalidated := fst (revalidatedPolicy (t1 + lat) pol opts resp) in
  fromObject (Some (toObject revalidated)) = Some revalidated ->
  satisfiesWithoutRevalidation (t' + store_latency) revalidated (optionsNew url options')
    = true ->
  (2 <= n)%nat ->
  let response :=
    TextResponse (cv_text o) (responseHeaders (t' + store_latency) revalidated) in
  let st1 := store (request 7 t0 st url options) in
  let w := request n t' st1 url options' in
  List.filter is_caller_settled (events w) = [CallerSettled url (inl response)] /\
  res_body response = default "" (cv_text o) /\
  (forall m, existsb is_fetch_start (events (request m t' st1 url options')) = false).
Proof.
  intros Hst Hp Hf Hb revalidated Hrt Hf' Hn response st1 w. subst response w.
  pose proof (revalidated_entry t0 st url options o pol lat resp 7 Hst Hp Hf Hb
                ltac:(lia)) as Hentry.
  cbn zeta in Hentry. fold st1 revalidated in Hentry.
  match type of Hentry with _ = Some (JsObject ?e) => set (entry := e) in Hentry end.
  assert (default JsUndefined (st1 !! url) = JsObject entry) as Hst1
    by (by rewrite Hentry).
  split; [|split; [done|]].
  - replace n with (2 + (n - 2))%nat by lia.
    by rewrite (run_fresh t' st1 url options' entry revalidated).
  - intros m.
    apply (existsb_prefix _ _ _ (events_mono t' st1 url options' m (2 + m) ltac:(lia))).
    by rewrite (run_fresh t' st1 url options' entry revalidated).
Qed.

End Compose.

(** *** Two calls in flight *)

Section Overlap.
Variables (t0 : N) (st : gmap string (JsValue PolicyObj)) (url : string)
  (options : RequestOptions).

Local Abbreviation opts := (optionsNew url options).
Local Abbreviation t1 := (t0 + store_latency).

(** X14.  Two overlapping calls for the same stale URL are not coalesced:
    each is served the stale response, each calls the transport, and each
    writes the store when its revalidation is answered. *)
Theorem overlapping_stale_calls_not_coalesced o pol lat resp n :
  st !! url = Some (JsObject o) ->
  fromObject (cv_policy o) = Some pol ->
  satisfiesWithoutRevalidation t1 pol opts = false ->
  baseFetch t1 url
    (mkOptions (method opts) (revalidationHeaders pol opts) (req_body opts))
    = (lat, inl resp) ->
  (14 <= n)%nat ->
  let w := overlapping baseFetch store_latency n t0 st url options options in
  let served := CallerSettled url (inl (TextResponse (cv_text o) (responseHeaders t1 pol))) in
  quiescent w /\
  List.filter is_caller_settled (events w) = [served; served] /\
  length (List.filter is_fetch_start (events w)) = 2%nat /\
  length (List.filter is_store_set (events w)) = 2%nat /\
  length (List.filter (is_dispatch "response-revalidated") (events w)) = 2%nat.
Proof.
  intros Hst Hp Hf Hb Hn w served. subst w served.
  replace n with (14 + (n - 14))%nat by lia.
  destruct (N.lt_trichotomy lat 10) as [Hlat|[->|Hlat]].
  all: eassert (overlapping baseFetch store_latency (14 + (n - 14)) t0 st url
                  options options = _) as ->;
    [ unfold overlapping, wrapFetch, cachedFetch, cache_get, idle; cbn [store emit];
      repeat progress
        (cbn; arith; rewrite ?Hst, ?Hp, ?Hf, ?Hb;
         unfold cachedFetch_resume, revalidateCacheHit, fetch, revalidateCacheHit_then,
           revalidateCacheHit_blob, cache_set);
      rewrite run_quiescent by done; reflexivity
    | unfold events; cbn; done ].
Qed.

End Overlap.

End Runs.

(** ** The claims on the documented scenario *)

Section Scenario.
Import Sample.

Local Abbreviation stale_response := (mkResponse 200 served_headers "old").

(** C1.  The origin answers the revalidation of [/doc.xml] with a changed
    document, [newer]; the entry written back has the headers, the size and
    the policy of that response, and the text of the entry it replaces. *)
Theorem modified_revalidation_keeps_old_text :
  let w := request origin_changed 5 7 70000 doc_store "/doc.xml" get_request in
  (70055, FetchSettled "/doc.xml" (inl changed_response)) ∈ trace w /\
  (70055, Console (LogModified true)) ∈ trace w /\
  res_body changed_response = "newer" /\
  store w !! "/doc.xml" =
    Some (JsObject
            (mkCacheValue (Some "old") (res_headers changed_response) 5
               (Some (mkPolicyObj 1
                        (mkPolicy (Some "GET") false 200 (res_headers changed_response)
                           70055))))).
Proof.
  cbn zeta. split; [|split; [|split]].
  - vm_compute. apply list_elem_of_In. cbn. repeat ((left; reflexivity) || right).
  - vm_compute. apply list_elem_of_In. cbn. repeat ((left; reflexivity) || right).
  - reflexivity.
  - vm_compute. reflexivity.
Qed.

(** C2 fails as written: the store is read for a URL containing
    [without_caching.xml], and it is written when a stale entry is found
    there. *)
Lemma no_store_url_reads_and_writes :
  includes feed_url "without_caching.xml" = true /\
  bypass_as_claimed
    (events (request origin_changed 5 7 0 ∅ feed_url get_request)) = false /\
  existsb is_store_get
    (events (request origin_changed 5 7 0 ∅ feed_url get_request)) = true /\
  existsb is_store_set
    (events (request origin_changed 5 7 70000 feed_store feed_url get_request)) = true.
Proof. vm_compute. done. Qed.

(** C3 fails as written: the transport is called before
    [response-stale-revalidating] is dispatched. *)
Lemma stale_event_after_fetch_start :
  event_order_as_claimed
    (events (request origin_unchanged 5 7 70000 doc_store "/doc.xml" get_request))
  = false.
Proof. vm_compute. done. Qed.

(** C6 fails as written: the 304 brings [max-age=120], the revalidated
    policy has it, the headers of the entry still say [max-age=60]. *)
Lemma not_modified_headers_not_refreshed :
  ~ not_modified_entry_as_claimed 72055 doc_entry
      (fst (revalidatedPolicy 70055 doc_policy (optionsNew "/doc.xml" get_request)
              unchanged_response))
      (store (request origin_unchanged 5 7 70000 doc_store "/doc.xml" get_request)
         !! "/doc.xml").
Proof.
  intros (o & Ho & _ & _ & Hh).
  vm_compute in Ho. injection Ho as <-.
  apply (f_equal (fun h : Headers => h !! "cache-control")) in Hh.
  vm_compute in Hh. discriminate.
Qed.

(** C8 fails as written: an entry whose policy snapshot is refused is not
    handled as a miss, and the caller's promise rejects. *)
Lemma malformed_entry_is_no_miss :
  malformed (JsObject broken_entry) = true /\
  malformed_as_claimed
    (events (request origin_changed 5 7 70000 {[ "/doc.xml" := JsObject broken_entry ]}
               "/doc.xml" get_request)) = false.
Proof. vm_compute. done. Qed.

(** C9 fails as written: when the lookup is issued the request still has its
    method as the caller wrote it. *)
Lemma lookup_precedes_normalization :
  normalized_before_lookup
    (request origin_changed 5 0 0 doc_store "/doc.xml" get_request) = false.
Proof. vm_compute. done. Qed.

(** *** The theorems at work *)

Lemma fresh_hit_served_from_store_witness :
  let w := request origin_down 5 2 10000 doc_store "/doc.xml" get_request in
  quiescent w /\
  List.filter is_caller_settled (events w) = [CallerSettled "/doc.xml" (inl stale_response)] /\
  res_body stale_response = "old" /\
  ((forall name value, doc_headers !! name = Some value -> toLowerCase name = name) ->
   forall name value,
     doc_headers !! name = Some value ->
     res_headers stale_response !! name = Some value) /\
  (forall m, existsb is_fetch_start
               (events (request origin_down 5 m 10000 doc_store "/doc.xml" get_request))
             = false) /\
  store w = doc_store.
Proof.
  refine (fresh_hit_served_from_store origin_down 5 10000 doc_store "/doc.xml"
           get_request doc_entry "old" doc_policy 2 _ _ _ _ _);
    first [lia | reflexivity].
Defined.

Lemma stale_hit_served_without_waiting_witness :
  let served := CallerSettled "/doc.xml" (inl stale_response) in
  let w := request origin_changed 5 7 70000 doc_store "/doc.xml" get_request in
  let w2 := request origin_changed 5 2 70000 doc_store "/doc.xml" get_request in
  res_body stale_response = "old" /\
  ((forall name value, doc_headers !! name = Some value -> toLowerCase name = name) ->
   forall name value,
     doc_headers !! name = Some value ->
     res_headers stale_response !! name = Some value) /\
  last (trace w2) = Some (70005%N, served) /\
  existsb is_fetch_settled (events w2) = false /\
  macrotasks w2 <> [] /\
  List.filter is_caller_settled (events w) = [served] /\
  beforeb is_caller_settled is_fetch_settled (events w) = true /\
  beforeb is_fetch_settled is_caller_settled (events w) = false /\
  beforeb is_store_set is_caller_settled (events w) = false.
Proof.
  refine (stale_hit_served_without_waiting origin_changed 5 70000 doc_store "/doc.xml"
           get_request doc_entry "old" doc_policy 7 _ _ _ _ _);
    first [lia | reflexivity].
Defined.

Lemma failed_revalidation_leaves_store_witness :
  let w := request origin_down 5 4 70000 doc_store "/doc.xml" get_request in
  quiescent w /\
  store w = doc_store /\
  (forall m, existsb is_store_set
               (events (request origin_down 5 m 70000 doc_store "/doc.xml" get_request))
             = false) /\
  List.filter is_caller_settled (events w) = [CallerSettled "/doc.xml" (inl stale_response)] /\
  length (List.filter is_fetch_start (events w)) = 1%nat.
Proof.
  refine (failed_revalidation_leaves_store origin_down 5 70000 doc_store "/doc.xml"
           get_request doc_entry "old" doc_policy 50 (NetworkError "Network request failed") 4 _ _ _ _ _ _);
    first [lia | reflexivity].
Defined.

Lemma stale_event_follows_fetch_start_witness :
  let revalidating := is_dispatch "response-stale-revalidating" in
  let revalidated := is_dispatch "response-revalidated" in
  let opts := optionsNew "/doc.xml" get_request in
  let w := request origin_unchanged 5 7 70000 doc_store "/doc.xml" get_request in
  (exists revalidationOptions,
     (70005%N, FetchStart "/doc.xml" revalidationOptions) ∈ trace w) /\
  (70015%N, Dispatch "response-stale-revalidating" "/doc.xml") ∈ trace w /\
  beforeb is_fetch_start revalidating (events w) = true /\
  beforeb revalidating is_fetch_start (events w) = false /\
  (forall lat resp,
     origin_unchanged 70005
       "/doc.xml"
       (mkOptions (method opts) (revalidationHeaders doc_policy opts) (req_body opts))
       = (lat, inl resp) ->
     beforeb is_fetch_settled is_store_set (events w) = true /\
     beforeb is_store_set revalidated (events w) = true /\
     beforeb revalidated is_store_set (events w) = false /\
     beforeb revalidated is_fetch_settled (events w) = false /\
     beforeb revalidating revalidated (events w) = true).
Proof.
  refine (stale_event_follows_fetch_start origin_unchanged 5 70000 doc_store "/doc.xml"
           get_request doc_entry doc_policy 7 _ _ _ _);
    first [lia | reflexivity].
Defined.

Lemma not_modified_keeps_body_and_served_headers_witness :
  exists entry,
    store (request origin_unchanged 5 7 70000 doc_store "/doc.xml" get_request)
      !! "/doc.xml" = Some (JsObject entry) /\
    cv_text entry = Some "old" /\
    cv_policy entry =
      Some (toObject (fst (revalidatedPolicy 70055 doc_policy
                             (optionsNew "/doc.xml" get_request) unchanged_response))) /\
    cv_headers entry = served_headers /\
    cv_size entry = 3%nat.
Proof.
  refine (not_modified_keeps_body_and_served_headers origin_unchanged 5 70000 doc_store
           "/doc.xml" get_request doc_entry doc_policy 50 unchanged_response 7 _ _ _ _ _ _);
    first [lia | reflexivity].
Defined.

Lemma no_store_url_still_reads_store_witness :
  let opts := optionsNew feed_url get_request in
  carries_no_store opts = true /\
  (forall n, exists rest,
     trace (request origin_changed 5 n 0 ∅ feed_url get_request)
     = (0%N, StoreGet feed_url) :: rest) /\
  ((∅ : gmap string (JsValue policy_obj)) !! feed_url = None ->
   forall n, (6 <= n)%nat ->
     let w := request origin_changed 5 n 0 ∅ feed_url get_request in
     let '(lat, r) := origin_changed 5 feed_url opts in
     List.filter is_fetch_start (events w) = [FetchStart feed_url opts] /\
     existsb is_store_set (events w) =
       match r with
       | inl resp => storable (newPolicy (5 + lat) opts resp cachePolicyOptions)
       | inr _ => false
       end).
Proof.
  apply (no_store_url_still_reads_store origin_changed 5 0 ∅ feed_url get_request).
  vm_compute; reflexivity.
Defined.

Lemma malformed_entry_rejects_witness :
  let w := request origin_changed 5 2 70000 {[ "/doc.xml" := JsObject broken_entry ]}
             "/doc.xml" get_request in
  quiescent w /\
  store w = {[ "/doc.xml" := JsObject broken_entry ]} /\
  (exists err, List.filter is_caller_settled (events w)
               = [CallerSettled "/doc.xml" (inr err)]
               /\ cache_error err = true) /\
  existsb is_log_miss (events w) = false /\
  existsb is_fetch_start (events w) = false /\
  existsb is_store_set (events w) = false.
Proof.
  refine (malformed_entry_rejects origin_changed 5 70000
           {[ "/doc.xml" := JsObject broken_entry ]} "/doc.xml" get_request
           (JsObject broken_entry) 2 _ _ _);
    first [lia | reflexivity].
Defined.

Lemma method_case_never_changes_outcome_witness :
  let o1 := mkOptions (Some "get") ∅ None in
  let o2 := mkOptions (Some "GET") ∅ None in
  trace (request origin_changed 5 0 70000 doc_store "/doc.xml" o1)
    = [(70000%N, StoreGet "/doc.xml")] /\
  awaiting_lookup (request origin_changed 5 0 70000 doc_store "/doc.xml" o1) = [o1] /\
  method (optionsNew "/doc.xml" o1) = toUpperCase <$> method o1 /\
  method_normalized (optionsNew "/doc.xml" o1) = true /\
  (forall n, trace (request origin_changed 5 n 70000 doc_store "/doc.xml" o1)
             = trace (request origin_changed 5 n 70000 doc_store "/doc.xml" o2)) /\
  (forall n, (0 < n)%nat ->
     request origin_changed 5 n 70000 doc_store "/doc.xml" o1
     = request origin_changed 5 n 70000 doc_store "/doc.xml" o2).
Proof.
  apply (method_case_never_changes_outcome origin_changed 5 70000 doc_store "/doc.xml"
           (mkOptions (Some "get") ∅ None) (mkOptions (Some "GET") ∅ None));
    reflexivity.
Defined.

Lemma miss_only_when_undefined_witness :
  let got := default JsUndefined (({[ "/doc.xml" := JsNull ]} : gmap string (JsValue policy_obj))
                                    !! "/doc.xml") in
  let w := request origin_changed 5 7 70000 {[ "/doc.xml" := JsNull ]}
             "/doc.xml" get_request in
  existsb is_log_miss (events w) = is_undefined got /\
  (got = JsNull ->
   exists msg, List.filter is_caller_settled (events w)
               = [CallerSettled "/doc.xml" (inr (TypeError msg))]) /\
  (forall o, got = JsObject o -> fromObject (cv_policy o) = None ->
     List.filter is_caller_settled (events w)
     = [CallerSettled "/doc.xml" (inr PolicyError)]) /\
  (forall o pol, got = JsObject o -> fromObject (cv_policy o) = Some pol ->
     existsb is_log_hit (events w) = true).
Proof.
  apply (miss_only_when_undefined origin_changed 5 70000 {[ "/doc.xml" := JsNull ]}
           "/doc.xml" get_request 7).
  lia.
Defined.

(** *** The further theorems at work *)

Lemma miss_rejection_reaches_caller_witness :
  let e := NetworkError "Network request failed" in
  let w := request origin_down 5 3 0 ∅ "/doc.xml" get_request in
  quiescent w /\
  (55%N, CallerSettled "/doc.xml" (inr e)) ∈ trace w /\
  List.filter is_caller_settled (events w) = [CallerSettled "/doc.xml" (inr e)] /\
  store w = ∅ /\
  (forall m, existsb is_store_set
               (events (request origin_down 5 m 0 ∅ "/doc.xml" get_request)) = false).
Proof.
  refine (miss_rejection_reaches_caller origin_down 5 0 ∅ "/doc.xml" get_request
            50 (NetworkError "Network request failed") 3 _ _ _);
    first [lia | reflexivity].
Defined.

Lemma miss_not_storable_passes_through_witness :
  let w := request origin_uncacheable 5 3 0 ∅ "/doc.xml" get_request in
  quiescent w /\
  List.filter is_caller_settled (events w)
    = [CallerSettled "/doc.xml" (inl uncacheable_response)] /\
  store w = ∅ /\
  (forall m, existsb is_store_set
               (events (request origin_uncacheable 5 m 0 ∅ "/doc.xml" get_request))
             = false).
Proof.
  refine (miss_not_storable_passes_through origin_uncacheable 5 0 ∅ "/doc.xml"
            get_request 50 uncacheable_response 3 _ _ _ _);
    first [lia | reflexivity].
Defined.

Lemma miss_storable_caches_response_witness :
  let w := request origin_changed 5 6 0 ∅ "/doc.xml" get_request in
  quiescent w /\
  List.filter is_caller_settled (events w)
    = [CallerSettled "/doc.xml" (inl changed_response)] /\
  List.filter is_store_set (events w) = [StoreSet "/doc.xml" changed_entry 60000] /\
  store w !! "/doc.xml" = Some (JsObject changed_entry).
Proof.
  refine (miss_storable_caches_response origin_changed 5 0 ∅ "/doc.xml" get_request
            50 changed_response 6 _ _ _ _);
    first [lia | reflexivity].
Defined.

Lemma miss_then_fresh_hit_witness :
  let st1 := store (request origin_changed 5 6 0 ∅ "/doc.xml" get_request) in
  let w := request origin_changed 5 2 10000 st1 "/doc.xml" get_request in
  List.filter is_caller_settled (events w)
    = [CallerSettled "/doc.xml"
         (inl (mkResponse 200 served_changed_headers "newer"))] /\
  res_body (mkResponse 200 served_changed_headers "newer") = "newer" /\
  status (mkResponse 200 served_changed_headers "newer") = 200%nat /\
  (forall m, existsb is_fetch_start
               (events (request origin_changed 5 m 10000 st1 "/doc.xml" get_request))
             = false) /\
  store w = st1.
Proof.
  refine (miss_then_fresh_hit origin_changed 5 0 ∅ "/doc.xml" get_request 10000 get_request
            50 changed_response 2 _ _ _ _ _ _);
    first [lia | reflexivity].
Defined.

Lemma transport_sees_upper_case_method_witness :
  forallb fetch_method_normalized
    (events (request origin_changed 5 7 70000 doc_store "/doc.xml" get_request)) = true.
Proof.
  refine (transport_sees_upper_case_method origin_changed 5 70000 doc_store "/doc.xml"
            get_request 7 _); lia.
Defined.

Lemma one_read_one_call_one_write_witness :
  let tr := events (request origin_changed 5 7 70000 doc_store "/doc.xml" get_request) in
  List.filter is_store_get tr = [StoreGet "/doc.xml"] /\
  (length (List.filter is_fetch_start tr) <= 1)%nat /\
  (length (List.filter is_store_set tr) <= 1)%nat /\
  forallb (about_url "/doc.xml") tr = true.
Proof.
  refine (one_read_one_call_one_write origin_changed 5 70000 doc_store "/doc.xml"
            get_request 7 _); lia.
Defined.

Lemma other_keys_untouched_witness :
  store (request origin_changed 5 7 70000 doc_store "/feed.xml" get_request) !! "/doc.xml"
  = doc_store !! "/doc.xml".
Proof.
  refine (other_keys_untouched origin_changed 5 "/feed.xml" 70000 doc_store get_request
            7 "/doc.xml" _).
  discriminate.
Defined.

Lemma events_only_on_stale_hit_witness :
  existsb is_any_dispatch
    (events (request origin_changed 5 7 70000 doc_store "/doc.xml" get_request))
  = is_stale_hit 70005 (default JsUndefined (doc_store !! "/doc.xml"))
      (optionsNew "/doc.xml" get_request).
Proof.
  refine (events_only_on_stale_hit origin_changed 5 70000 doc_store "/doc.xml"
            get_request 7 _); lia.
Defined.

Lemma hit_without_text_serves_empty_body_witness :
  exists headers,
    List.filter is_caller_settled
      (events (request origin_down 5 7 10000 {[ "/doc.xml" := JsObject textless_entry ]}
                 "/doc.xml" get_request))
    = [CallerSettled "/doc.xml" (inl (mkResponse 200 headers ""))].
Proof.
  refine (hit_without_text_serves_empty_body origin_down 5 10000
            {[ "/doc.xml" := JsObject textless_entry ]} "/doc.xml" get_request
            textless_entry doc_policy 7 _ _ _ _);
    first [lia | reflexivity].
Defined.

Lemma modified_revalidation_entry_witness :
  exists entry,
    store (request origin_changed 5 7 70000 doc_store "/doc.xml" get_request)
      !! "/doc.xml" = Some (JsObject entry) /\
    cv_text entry = Some "old" /\
    cv_headers entry = res_headers changed_response /\
    cv_size entry = 5%nat /\
    cv_policy entry
    = Some (toObject (fst (revalidatedPolicy 70055 doc_policy
                             (optionsNew "/doc.xml" get_request) changed_response))).
Proof.
  refine (modified_revalidation_entry origin_changed 5 70000 doc_store "/doc.xml"
            get_request doc_entry doc_policy 50 changed_response 7 _ _ _ _ _ _);
    first [lia | reflexivity].
Defined.

Lemma revalidation_write_is_delayed_witness :
  let w := request origin_changed 5 7 70000 doc_store "/doc.xml" get_request in
  (70055%N, FetchSettled "/doc.xml" (inl changed_response)) ∈ trace w /\
  (forall m t u v expiry,
     (t, StoreSet u v expiry)
       ∈ trace (request origin_changed 5 m 70000 doc_store "/doc.xml" get_request) ->
     t = 72055%N) /\
  (exists v expiry, (72055%N, StoreSet "/doc.xml" v expiry) ∈ trace w) /\
  (72060%N, Dispatch "response-revalidated" "/doc.xml") ∈ trace w.
Proof.
  refine (revalidation_write_is_delayed origin_changed 5 70000 doc_store "/doc.xml"
            get_request doc_entry doc_policy 50 changed_response 7 _ _ _ _ _);
    first [lia | reflexivity].
Defined.

Lemma revalidation_then_fresh_hit_witness :
  let st1 := store (request origin_changed 5 7 70000 doc_store "/doc.xml" get_request) in
  let w := request origin_changed 5 2 80000 st1 "/doc.xml" get_request in
  List.filter is_caller_settled (events w)
    = [CallerSettled "/doc.xml"
         (inl (mkResponse 200 served_changed_headers "old"))] /\
  res_body (mkResponse 200 served_changed_headers "old") = "old" /\
  (forall m, existsb is_fetch_start
               (events (request origin_changed 5 m 80000 st1 "/doc.xml" get_request))
             = false).
Proof.
  refine (revalidation_then_fresh_hit origin_changed 5 70000 doc_store "/doc.xml"
            get_request 80000 get_request doc_entry doc_policy 50 changed_response 2
            _ _ _ _ _ _ _);
    first [lia | reflexivity].
Defined.

Lemma overlapping_stale_calls_not_coalesced_witness :
  let w := overlapping origin_unchanged 5 14 70000 doc_store "/doc.xml"
             get_request get_request in
  let served := CallerSettled "/doc.xml" (inl stale_response) in
  quiescent w /\
  List.filter is_caller_settled (events w) = [served; served] /\
  length (List.filter is_fetch_start (events w)) = 2%nat /\
  length (List.filter is_store_set (events w)) = 2%nat /\
  length (List.filter (is_dispatch "response-revalidated") (events w)) = 2%nat.
Proof.
  refine (overlapping_stale_calls_not_coalesced origin_unchanged 5 70000 doc_store
            "/doc.xml" get_request doc_entry doc_policy 50 unchanged_response 14
            _ _ _ _ _);
    first [lia | reflexivity].
Defined.

Lemma write_expiry_is_time_to_live_witness :
  "/doc.xml" = "/doc.xml" /\
  exists policy,
    cv_policy changed_entry = Some (toObject policy) /\ 60000%N = timeToLive 55 policy.
Proof.
  refine (write_expiry_is_time_to_live origin_changed 5 0 ∅ "/doc.xml" get_request
            7 55 "/doc.xml" changed_entry 60000 _ _); [lia|].
  apply list_elem_of_In. vm_compute. repeat ((left; reflexivity) || right).
Defined.

End Scenario.
